(** * Resume generator: extraction, sanitising and template rendering

    A shallow embedding of [backend/routes/resume.py] ([fetch_github_data],
    [sanitize], [generate_latex_resume]) and of
    [backend/agents/resume_agents.py] ([ResumeWorkflow.escape_latex]),
    followed by the properties established about them. *)

From Stdlib Require Import List ZArith NArith Lia Bool String Ascii.
From Stdlib Require Import Permutation Sorted.
From Stdlib Require Decimal.
Import ListNotations.

Local Open Scope N_scope.

(** ** Python strings *)

(** A Python [str] is a sequence of Unicode code points. *)
Definition char := N.
Definition str := list char.

(** ASCII literals are written as Rocq strings and read byte by byte. *)
Definition u (s : string) : str :=
  List.map N_of_ascii (list_ascii_of_string s).
Arguments u s%_string.

Definition nl : str := [10].

Definition char_eqb (a b : char) : bool := N.eqb a b.

Fixpoint str_eqb (a b : str) : bool :=
  match a, b with
  | [], [] => true
  | x :: a', y :: b' => char_eqb x y && str_eqb a' b'
  | _, _ => false
  end.

(** [text.startswith(old)] *)
Fixpoint startswith (old text : str) : bool :=
  match old, text with
  | [], _ => true
  | _ :: _, [] => false
  | x :: old', y :: text' => char_eqb x y && startswith old' text'
  end.

(** [old in text] *)
Fixpoint contains (old text : str) : bool :=
  startswith old text ||
  match text with
  | [] => false
  | _ :: text' => contains old text'
  end.

(** [text.replace(old, new)] for a non-empty [old]: the text is scanned from
    the left, every non-overlapping occurrence of [old] is replaced, and the
    scan resumes after the occurrence.  [skip] counts the characters of the
    occurrence just replaced that are still to be passed over. *)
Fixpoint replace_from (old new : str) (skip : nat) (text : str) : str :=
  match text with
  | [] => []
  | c :: rest =>
      match skip with
      | S k => replace_from old new k rest
      | O =>
          if startswith old text
          then new ++ replace_from old new (List.length old - 1) rest
          else c :: replace_from old new 0 rest
      end
  end.

(** [text.replace(old, new)]; with an empty [old] Python puts [new] before
    every character and at the end. *)
Definition replace (old new text : str) : str :=
  match old with
  | [] => flat_map (fun c => new ++ [c]) text ++ new
  | _ :: _ => replace_from old new 0 text
  end.

(** [sep.join(items)] *)
Fixpoint join (sep : str) (items : list str) : str :=
  match items with
  | [] => []
  | [x] => x
  | x :: rest => x ++ sep ++ join sep rest
  end.

(** [text[:n]] for a non-negative [n] *)
Definition slice_to (n : nat) (text : str) : str := firstn n text.

(** [text.split(sep)] for a one-character separator. *)
Fixpoint split_char (sep : char) (text : str) : list str :=
  match text with
  | [] => [[]]
  | c :: rest =>
      if char_eqb c sep then [] :: split_char sep rest
      else match split_char sep rest with
           | [] => [[c]]
           | w :: ws => (c :: w) :: ws
           end
  end.

(** A value read from a JSON field that holds a string or [null]; also the
    argument of the sanitisers, which test [if not text]. *)
Inductive pyval :=
| PyNone
| PyStr (s : str).

(** Truth value of a string-or-None value: [None] and [""] are falsy. *)
Definition truthy (v : pyval) : bool :=
  match v with
  | PyNone => false
  | PyStr [] => false
  | PyStr (_ :: _) => true
  end.

(** [f"{v}"] *)
Definition format_val (v : pyval) : str :=
  match v with
  | PyNone => u "None"
  | PyStr s => s
  end.

(** [d.get(key, default)] where [None] stands for an absent key. *)
Definition dict_get {A : Type} (field : option A) (default : A) : A :=
  match field with
  | Some v => v
  | None => default
  end.

(** [str(n)] for an integer. *)
Fixpoint str_of_uint (d : Decimal.uint) : str :=
  match d with
  | Decimal.Nil => []
  | Decimal.D0 d => 48 :: str_of_uint d
  | Decimal.D1 d => 49 :: str_of_uint d
  | Decimal.D2 d => 50 :: str_of_uint d
  | Decimal.D3 d => 51 :: str_of_uint d
  | Decimal.D4 d => 52 :: str_of_uint d
  | Decimal.D5 d => 53 :: str_of_uint d
  | Decimal.D6 d => 54 :: str_of_uint d
  | Decimal.D7 d => 55 :: str_of_uint d
  | Decimal.D8 d => 56 :: str_of_uint d
  | Decimal.D9 d => 57 :: str_of_uint d
  end.

Definition str_of_Z (z : Z) : str :=
  match Z.to_int z with
  | Decimal.Pos d => str_of_uint d
  | Decimal.Neg d => 45 :: str_of_uint d
  end.

(** ** [sanitize] (routes/resume.py) *)

Definition is_ascii (c : char) : bool := c <? 128.

(** [re.sub(r'[^\x00-\x7F]+', '', text)]: every run of code points above
    0x7F is deleted. *)
Definition remove_non_ascii (text : str) : str := filter is_ascii text.

Module Sanitize.

(** The [replacements] dict, in insertion order (the order of
    [replacements.items()]). *)
Definition replacements : list (str * str) :=
  [ (u "&", u "\&");
    (u "%", u "\%");
    (u "$", u "\$");
    (u "#", u "\#");
    (u "_", u "\_");
    (u "{", u "\{");
    (u "}", u "\}");
    (u "~", u "\textasciitilde{}");
    (u "^", u "\textasciicircum{}");
    (u "\", u "\textbackslash{}");
    (u "<", u "\textless{}");
    (u ">", u "\textgreater{}");
    (u "|", u "$|$") ].

End Sanitize.

(** [for old, new in table: text = text.replace(old, new)] *)
Definition replace_each (table : list (str * str)) (text : str) : str :=
  fold_left (fun acc kv => replace (fst kv) (snd kv) acc) table text.

Definition sanitize (text : pyval) : str :=
  if negb (truthy text) then []
  else
    let text := remove_non_ascii (format_val text) in
    replace_each Sanitize.replacements text.

(** ** [ResumeWorkflow.escape_latex] (agents/resume_agents.py) *)

(** [c.isspace()], the characters removed by [str.strip()]. *)
Definition isspace (c : char) : bool :=
  ((9 <=? c) && (c <=? 13)) || ((28 <=? c) && (c <=? 32)) ||
  (c =? 133) || (c =? 160) || (c =? 5760) ||
  ((8192 <=? c) && (c <=? 8202)) || (c =? 8232) || (c =? 8233) ||
  (c =? 8239) || (c =? 8287) || (c =? 12288).

Fixpoint lstrip (text : str) : str :=
  match text with
  | [] => []
  | c :: rest => if isspace c then lstrip rest else text
  end.

Definition rstrip (text : str) : str := rev (lstrip (rev text)).

(** [text.strip()] *)
Definition strip (text : str) : str := rstrip (lstrip text).

Module EscapeLatex.

(** The [latex_special_chars] dict, in insertion order. *)
Definition latex_special_chars : list (str * str) :=
  [ (u "&", u "\&");
    (u "%", u "\%");
    (u "$", u "\$");
    (u "#", u "\#");
    (u "_", u "\_");
    (u "{", u "\{");
    (u "}", u "\}");
    (u "~", u "\textasciitilde{}");
    (u "^", u "\textasciicircum{}");
    (u "\", u "\textbackslash{}");
    (u "<", u "\textless{}");
    (u ">", u "\textgreater{}") ].

End EscapeLatex.

Section EscapeLatexDef.

(** [str.isprintable] consults the Unicode database; on ASCII it is the
    range 0x20..0x7E.  Its value on the other code points is left open. *)
Variable isprintable_non_ascii : char -> bool.

Definition isprintable (c : char) : bool :=
  if is_ascii c then (32 <=? c) && (c <=? 126)
  else isprintable_non_ascii c.

(** The loop over [latex_special_chars.items()], which skips the backslash
    entry. *)
Definition escape_special_chars (text : str) : str :=
  fold_left
    (fun acc kv =>
       if negb (str_eqb (fst kv) (u "\"))
       then replace (fst kv) (snd kv) acc
       else acc)
    EscapeLatex.latex_special_chars text.

(** The body of [escape_latex] up to, and without, the final [strip()]. *)
Definition escape_latex_unstripped (text : str) : str :=
  let text := filter is_ascii text in
  let text := replace (u "\") (u "\textbackslash{}") text in
  let text := escape_special_chars text in
  filter isprintable text.

Definition escape_latex (text : str) : str :=
  match text with
  | [] => []
  | _ :: _ => strip (escape_latex_unstripped text)
  end.

End EscapeLatexDef.

(** ** Sorting as Python's [sorted] *)

Section PySorted.

Context {A K : Type}.
(** [ltb] is [<] on keys, the only comparison [sorted] uses. *)
Variable ltb : K -> K -> bool.
Variable key : A -> K.
Variable reverse : bool.

(** [x], met before [y] in the input, stays before it unless [y] has to
    come strictly first. *)
Definition stays_before (x y : A) : bool :=
  negb (if reverse then ltb (key x) (key y) else ltb (key y) (key x)).

Fixpoint insert_sorted (x : A) (l : list A) : list A :=
  match l with
  | [] => [x]
  | y :: l' => if stays_before x y then x :: l else y :: insert_sorted x l'
  end.

(** [sorted(l, key=key, reverse=reverse)]: a stable sort, which with
    [reverse=True] also keeps elements of equal keys in their input order. *)
Definition sorted (l : list A) : list A := fold_right insert_sorted [] l.

End PySorted.

(** [<] on Python strings: lexicographic on code points. *)
Fixpoint str_ltb (a b : str) : bool :=
  match a, b with
  | _, [] => false
  | [], _ :: _ => true
  | x :: a', y :: b' => (x <? y) || ((x =? y) && str_ltb a' b')
  end.

(** [<] on pairs of integers: lexicographic. *)
Definition tuple_ltb (a b : Z * Z) : bool :=
  (fst a <? fst b)%Z || ((fst a =? fst b)%Z && (snd a <? snd b)%Z).

(** ** Results and errors *)

(** Every exception raised in the body of [fetch_github_data] leaves it as
    [HTTPException(status_code=500, ...)]. *)
Inductive result (A : Type) :=
| Ok (a : A)
| HTTPException (status_code : Z).
Arguments Ok {A} a.
Arguments HTTPException {A} status_code.

Definition bind {A B : Type} (r : result A) (k : A -> result B) : result B :=
  match r with
  | Ok a => k a
  | HTTPException c => HTTPException c
  end.

Notation "x <- e ;; k" := (bind e (fun x => k))
  (at level 61, e at next level, right associativity).

(** [d[key]]: a [KeyError] when the key is absent. *)
Definition dict_item {A : Type} (field : option A) : result A :=
  match field with
  | Some v => Ok v
  | None => HTTPException 500
  end.

(** ** The data read from the GitHub API *)

(** A repository object.  The keys the code reads with [repo[...]] only are
    plain fields; the keys it reads with [repo.get(...)] may be absent. *)
Record Repo := {
  repo_name : str;
  repo_description : option pyval;
  repo_fork : option bool;
  repo_stargazers_count : option Z;
  repo_forks_count : option Z;
  repo_languages_url : str;
  repo_commits_url : str;
  repo_html_url : str;
  repo_created_at : str;
  repo_updated_at : str
}.

(** The user object; every key is read with [user_data.get(...)]. *)
Record UserData := {
  user_name : option pyval;
  user_email : option pyval;
  user_location : option pyval;
  user_bio : option pyval;
  user_blog : option pyval;
  user_company : option pyval;
  user_followers : option Z;
  user_following : option Z;
  user_public_repos : option Z
}.

Record Response (A : Type) := {
  status_code : Z;
  json : A
}.
Arguments status_code {A} r.
Arguments json {A} r.

(** [requests.get(url, headers=headers)], by the kind of resource asked for.
    [None] is a request that raises instead of returning a response. *)
Record Network := {
  get_user : str -> option (Response UserData);
  get_repos : str -> option (Response (list Repo));
  get_languages : str -> option (Response (list (str * Z)));
  get_commits : str -> option (Response (list str))
}.

Definition requests_get {A : Type} (r : option (Response A))
  : result (Response A) :=
  match r with
  | Some resp => Ok resp
  | None => HTTPException 500
  end.

(** ** The extracted facts *)

Record ProjectData := {
  proj_name : str;
  proj_description : str;
  proj_languages : list str;
  proj_stars : Z;
  proj_commits : nat;
  proj_url : str
}.

Record ExpData := {
  exp_company : str;
  exp_position : str;
  exp_date : str;
  exp_description : str
}.

Record EducationData := {
  edu_school : str;
  edu_degree : str;
  edu_date : str;
  edu_gpa : str
}.

Record FinalData := {
  fd_name : pyval;
  fd_email : pyval;
  fd_phone : str;
  fd_location : pyval;
  fd_bio : pyval;
  fd_skills : list str;
  fd_projects : list ProjectData;
  fd_experience : list ExpData;
  fd_education : list EducationData;
  fd_profile_url : str;
  fd_blog : pyval;
  fd_company : pyval;
  fd_followers : Z;
  fd_following : Z;
  fd_public_repos : Z
}.

(** ** [fetch_github_data] *)

(** [all_languages.update(languages)] on a set kept as a duplicate-free
    list. *)
Definition set_add (x : str) (s : list str) : list str :=
  if existsb (str_eqb x) s then s else s ++ [x].

Definition set_update (s : list str) (xs : list str) : list str :=
  fold_left (fun acc x => set_add x acc) xs s.

(** The key of the sort:
    [(x.get('stargazers_count', 0), x.get('forks_count', 0))]. *)
Definition sort_key (x : Repo) : Z * Z :=
  (dict_get (repo_stargazers_count x) 0%Z, dict_get (repo_forks_count x) 0%Z).

Definition sorted_repos (repos : list Repo) : list Repo :=
  sorted tuple_ltb sort_key true repos.

(** [not repo.get('fork')] *)
Definition not_fork (repo : Repo) : bool :=
  negb (dict_get (repo_fork repo) false).

(** The text bound to [description] in the loop. *)
Definition compose_description (repo : Repo) (languages : list str)
    (commit_count : nat) (stargazers_count : Z) : str :=
  format_val (dict_get (repo_description repo) (PyStr (u "A project")))
    ++ u ". "
    ++ u "Technologies: " ++ join (u ", ") languages ++ u ". "
    ++ u "Made " ++ str_of_Z (Z.of_nat commit_count) ++ u " commits. "
    ++ u "Stars: " ++ str_of_Z stargazers_count
    ++ u ", Forks: " ++ str_of_Z (dict_get (repo_forks_count repo) 0%Z).

(** The loop state: [projects], [experience], [all_languages]. *)
Definition LoopState : Type :=
  list ProjectData * list ExpData * list str.

(** One iteration of [for repo in sorted(...)]. *)
Definition process_repo (net : Network) (st : LoopState) (repo : Repo)
  : result LoopState :=
  let '(projects, experience, all_languages) := st in
  if not_fork repo then
    lang_response <- requests_get (get_languages net (repo_languages_url repo)) ;;
    let languages :=
      if (status_code lang_response =? 200)%Z
      then List.map fst (json lang_response) else [] in
    let all_languages := set_update all_languages languages in
    let commits_url := hd [] (split_char 123 (repo_commits_url repo)) in
    commits_response <- requests_get (get_commits net commits_url) ;;
    let commits :=
      if (status_code commits_response =? 200)%Z
      then json commits_response else [] in
    let commit_count := List.length commits in
    stargazers_count <- dict_item (repo_stargazers_count repo) ;;
    let description :=
      compose_description repo languages commit_count stargazers_count in
    let significant :=
      (0 <? stargazers_count)%Z || (10 <? commit_count)%nat in
    let projects :=
      if (List.length projects <? 3)%nat && significant
      then projects ++
           [ {| proj_name := repo_name repo;
                proj_description := description;
                proj_languages := languages;
                proj_stars := stargazers_count;
                proj_commits := commit_count;
                proj_url := repo_html_url repo |} ]
      else projects in
    let experience :=
      if significant
      then experience ++
           [ {| exp_company :=
                  replace (u "-") (u " ")
                    (replace (u "_") (u " ") (repo_name repo));
                exp_position := u "Lead Developer";
                exp_date :=
                  slice_to 7 (repo_created_at repo) ++ u " - "
                    ++ slice_to 7 (repo_updated_at repo);
                exp_description := description |} ]
      else experience in
    Ok (projects, experience, all_languages)
  else Ok st.

Fixpoint process_repos (net : Network) (st : LoopState) (repos : list Repo)
  : result LoopState :=
  match repos with
  | [] => Ok st
  | repo :: rest =>
      st' <- process_repo net st repo ;;
      process_repos net st' rest
  end.

Definition education_data : EducationData :=
  {| edu_school := u "Computer Science Student";
     edu_degree := u "Bachelor of Science in Computer Science";
     edu_date := u "Present";
     edu_gpa := [] |}.

(** The body of [fetch_github_data] from [repos = repos_response.json()]
    on. *)
Definition process_github_data (net : Network) (github_url username : str)
    (user_data : UserData) (repos : list Repo) : result FinalData :=
  st <- process_repos net ([], [], []) (sorted_repos repos) ;;
  let '(projects, experience, all_languages) := st in
  let education :=
    if truthy (dict_get (user_bio user_data) PyNone)
    then [education_data] else [] in
  Ok {| fd_name := dict_get (user_name user_data) (PyStr username);
        fd_email := dict_get (user_email user_data) (PyStr []);
        fd_phone := [];
        fd_location := dict_get (user_location user_data) (PyStr []);
        fd_bio := dict_get (user_bio user_data) (PyStr []);
        fd_skills := sorted str_ltb (fun s => s) false all_languages;
        fd_projects := projects;
        fd_experience := experience;
        fd_education := education;
        fd_profile_url := github_url;
        fd_blog := dict_get (user_blog user_data) (PyStr []);
        fd_company := dict_get (user_company user_data) (PyStr []);
        fd_followers := dict_get (user_followers user_data) 0%Z;
        fd_following := dict_get (user_following user_data) 0%Z;
        fd_public_repos := dict_get (user_public_repos user_data) 0%Z |}.

Definition fetch_github_data (net : Network) (github_url : str)
  : result FinalData :=
  let username := last (split_char 47 github_url) [] in
  user_response <-
    requests_get (get_user net (u "https://api.github.com/users/" ++ username)) ;;
  if negb (status_code user_response =? 200)%Z then HTTPException 500
  else
    let user_data := json user_response in
    repos_response <-
      requests_get
        (get_repos net
           (u "https://api.github.com/users/" ++ username ++ u "/repos")) ;;
    if negb (status_code repos_response =? 200)%Z then HTTPException 500
    else
      let repos := json repos_response in
      process_github_data net github_url username user_data repos.

(** ** [generate_latex_resume] *)

Definition programming_language_names : list str :=
  [ u "Python"; u "JavaScript"; u "TypeScript"; u "C++"; u "HTML"; u "CSS";
    u "Jupyter Notebook" ].

(** [x in names] *)
Definition str_in (x : str) (names : list str) : bool :=
  existsb (str_eqb x) names.

Definition skills_section (github_data : FinalData) : str :=
  let programming_languages :=
    filter (fun lang => str_in lang programming_language_names)
      (fd_skills github_data) in
  let technologies :=
    filter (fun lang => negb (str_in lang programming_languages))
      (fd_skills github_data) in
  u "\begin{itemize}[leftmargin=0.15in, label={}]" ++ nl
    ++ u "    \small{\item{" ++ nl
    ++ u "    \textbf{Programming Languages}: "
    ++ sanitize (PyStr (join (u ", ") programming_languages)) ++ u " \\" ++ nl
    ++ u "    \textbf{Technologies}: "
    ++ sanitize (PyStr (join (u ", ") technologies)) ++ u " \\" ++ nl
    ++ u "    }}" ++ nl
    ++ u "\end{itemize}".

Definition experience_item (github_data : FinalData) (exp : ExpData) : str :=
  let description := sanitize (PyStr (exp_description exp)) in
  u "\resumeSubheading" ++ nl
    ++ u "            {" ++ sanitize (PyStr (exp_company exp)) ++ u "}{"
    ++ sanitize (fd_location github_data) ++ u "}" ++ nl
    ++ u "            {" ++ sanitize (PyStr (exp_position exp)) ++ u "}{"
    ++ sanitize (PyStr (exp_date exp)) ++ u "}" ++ nl
    ++ u "            \resumeItemListStart" ++ nl
    ++ u "            \resumeItem{" ++ description ++ u "}" ++ nl
    ++ u "            \resumeItemListEnd".

(** The items built from [github_data['experience'][:3]]. *)
Definition experience_items (github_data : FinalData) : list str :=
  List.map (experience_item github_data)
    (firstn 3 (fd_experience github_data)).

Definition experience_section (github_data : FinalData) : str :=
  u "\resumeSubHeadingListStart" ++ nl
    ++ join nl (experience_items github_data)
    ++ nl ++ u "\resumeSubHeadingListEnd".

Definition project_item (proj : ProjectData) : str :=
  let description := sanitize (PyStr (proj_description proj)) in
  let languages := sanitize (PyStr (join (u ", ") (proj_languages proj))) in
  u "\resumeSubheading" ++ nl
    ++ u "                {" ++ sanitize (PyStr (proj_name proj)) ++ u "}{"
    ++ sanitize (PyStr (u "GitHub")) ++ u "}" ++ nl
    ++ u "                {Project}{" ++ languages ++ u "}" ++ nl
    ++ u "                \resumeItemListStart" ++ nl
    ++ u "                \resumeItem{" ++ description ++ u "}" ++ nl
    ++ u "                \resumeItemListEnd".

(** The items built from [github_data['projects'][:2]]. *)
Definition project_items (github_data : FinalData) : list str :=
  List.map project_item (firstn 2 (fd_projects github_data)).

Definition projects_section (github_data : FinalData) : str :=
  u "\resumeSubHeadingListStart" ++ nl
    ++ join nl (project_items github_data)
    ++ nl ++ u "\resumeSubHeadingListEnd".

Definition education_item (github_data : FinalData) (edu : EducationData)
  : str :=
  u "\resumeSubheading"
    ++ u "{" ++ sanitize (PyStr (edu_school edu)) ++ u "}"
    ++ u "{" ++ sanitize (fd_location github_data) ++ u "}"
    ++ u "{" ++ sanitize (PyStr (edu_degree edu)) ++ u "}"
    ++ u "{" ++ sanitize (PyStr (edu_date edu)) ++ u "}".

Definition education_section (github_data : FinalData) : str :=
  u "\resumeSubHeadingListStart" ++ nl
    ++ join nl (List.map (education_item github_data)
                  (fd_education github_data))
    ++ nl ++ u "\resumeSubHeadingListEnd".

Definition contact_section (github_data : FinalData) : str :=
  u "\begin{center}" ++ nl
    ++ u "\small " ++ sanitize (fd_email github_data) ++ u " $|$ "
    ++ u "\href{" ++ sanitize (PyStr (fd_profile_url github_data)) ++ u "}{"
    ++ sanitize (PyStr (u "GitHub")) ++ u "} $|$ "
    ++ u "\href{" ++ sanitize (fd_blog github_data) ++ u "}{"
    ++ sanitize (PyStr (u "Portfolio")) ++ u "}" ++ nl
    ++ u "\end{center}".

(** The literal blocks of the template that serve as keys of the
    [replacements] dict. *)
Module TemplateBlock.

Definition name : str := u "\textbf{\Huge \scshape John Doe}".

Definition skills : str :=
  join nl
    [ u "\begin{itemize}[leftmargin=0.15in, label={}]";
      u "    \small{\item{";
      u "    \textbf{Programming Languages}: JavaScript, TypeScript, HTML, Python, Jupyter Notebook, C++ \\";
      u "    \textbf{Technologies}: Git, GitHub \\";
      u "    }}";
      u "\end{itemize}" ].

Definition experience : str :=
  join nl
    [ u "\resumeSubHeadingListStart";
      u "\resumeSubheading";
      u "            {Example Corp}{Location}";
      u "            {Software Engineer}{2020-Present}";
      u "            \resumeItemListStart";
      u "            \resumeItem{Full-stack development}";
      u "            \resumeItemListEnd";
      u "\resumeSubHeadingListEnd" ].

Definition projects : str :=
  join nl
    [ u "\resumeSubHeadingListStart";
      u "\resumeSubheading";
      u "                {A-H-Website}{GitHub}";
      u "                {Project}{HTML}";
      u "                \resumeItemListStart";
      u "                \resumeItem{So, I have created this website using HTML, CSS and JS and this is the first website in which I use JS and learn so much about JS different functions . In this website, I give every latest news on every major fields .It is like a latest news center in which I am updating information everyday so user get latest news}";
      u "                \resumeItemListEnd";
      u "\resumeSubheading";
      u "                {Advent-Of-Code-2024-Competition}{GitHub}";
      u "                {Project}{JavaScript}";
      u "                \resumeItemListStart";
      u "                \resumeItem{Welcome to my Advent of Code 2024 repository! "
        ++ [240; 376; 381; 8240]
        ++ u " Every day, I'll be solving a new puzzle and posting my solution here. This event is a fun and challenging way to improve problem-solving skills and learn new concepts. I'm documenting my journey to share with anyone who might be working through the same puzzles or wants to follow along!"
        ++ [240; 376; 338; 376] ++ u "}";
      u "                \resumeItemListEnd";
      u "\resumeSubHeadingListEnd" ].

Definition education : str :=
  join nl
    [ u "\resumeSubHeadingListStart";
      u "\resumeSubheading{University Name}{City, Country}{Degree}{2018-2022}";
      u "\resumeSubHeadingListEnd" ].

Definition contact : str :=
  join nl
    [ u "\begin{center}";
      u "\small john@example.com $|$ \href{https://github.com/HassanMehmood413}{GitHub} $|$ \href{https://www.linkedin.com/in/hassan-mehmood-01a3a9247/}{LinkedIn}";
      u "\end{center}" ].

End TemplateBlock.

(** The [replacements] dict of [generate_latex_resume], in insertion
    order; its six keys are pairwise different. *)
Definition replacements (github_data : FinalData) : list (str * str) :=
  [ (TemplateBlock.name,
     u "\textbf{\Huge \scshape " ++ sanitize (fd_name github_data) ++ u "}");
    (TemplateBlock.skills, skills_section github_data);
    (TemplateBlock.experience, experience_section github_data);
    (TemplateBlock.projects, projects_section github_data);
    (TemplateBlock.education, education_section github_data);
    (TemplateBlock.contact, contact_section github_data) ].

(** [latex_content = template; for key, value in replacements.items():
    latex_content = latex_content.replace(key, value)] *)
Definition render (template : str) (table : list (str * str)) : str :=
  replace_each table template.

(** [generate_latex_resume], given the text read from the template file. *)
Definition generate_latex_resume (template : str) (github_data : FinalData)
  : str :=
  render template (replacements github_data).

(** ** Independent substitution *)

(** The spec's reading of the renderer, kept apart from [render]: every
    registered pair is matched against the original template only.  The
    template is scanned once from the left; where a registered block starts
    (the first in table order, empty blocks never matching) its fragment is
    written and the scan resumes after the block, so that no fragment is
    ever searched for a block. *)
Fixpoint first_match (table : list (str * str)) (text : str)
  : option (str * str) :=
  match table with
  | [] => None
  | kv :: rest =>
      match fst kv with
      | [] => first_match rest text
      | _ :: _ => if startswith (fst kv) text then Some kv
                  else first_match rest text
      end
  end.

Fixpoint render_independent_from (table : list (str * str)) (skip : nat)
    (text : str) : str :=
  match text with
  | [] => []
  | c :: rest =>
      match skip with
      | S k => render_independent_from table k rest
      | O =>
          match first_match table text with
          | Some kv =>
              snd kv
                ++ render_independent_from table (List.length (fst kv) - 1) rest
          | None => c :: render_independent_from table 0 rest
          end
      end
  end.

Definition render_independent (template : str) (table : list (str * str))
  : str :=
  render_independent_from table 0 template.

(** ** [ResumeStructureAgent] (agents/resume_agents.py) *)

(** The methods of the agents raise instead of wrapping their errors. *)
Inductive exception :=
| KeyError (key : str)
| TypeError
| AttributeError (attribute : str)
| RequestException.

Inductive outcome (A : Type) :=
| Returns (a : A)
| Raises (e : exception).
Arguments Returns {A} a.
Arguments Raises {A} e.

Definition and_then {A B : Type} (r : outcome A) (k : A -> outcome B)
  : outcome B :=
  match r with
  | Returns a => k a
  | Raises e => Raises e
  end.

Notation "x <~ e ;; k" := (and_then e (fun x => k))
  (at level 61, e at next level, right associativity).

(** A dict of an experience or project list, by the keys the formatters
    read; [None] is an absent key. *)
Record Entry := {
  entry_company : option str;
  entry_location : option str;
  entry_position : option str;
  entry_date : option str;
  entry_description : option str;
  entry_name : option str;
  entry_platform : option str;
  entry_technologies : option (list str)
}.

(** An element of the [content] list handed to [format_section]. *)
Inductive item :=
| IStr (s : str)
| IDict (e : Entry).

(** [d[key]] on a dict. *)
Definition getitem {A : Type} (key : str) (field : option A) : outcome A :=
  match field with
  | Some v => Returns v
  | None => Raises (KeyError key)
  end.

(** [x[key]] on an element: a string cannot be indexed by a string. *)
Definition item_get {A : Type} (x : item) (key : str)
    (field : Entry -> option A) : outcome A :=
  match x with
  | IStr _ => Raises TypeError
  | IDict e => getitem key (field e)
  end.






(** [for x in xs: items.append(f x)] where [f] may raise. *)
Fixpoint for_each {A B : Type} (f : A -> outcome B) (xs : list A)
  : outcome (list B) :=
  match xs with
  | [] => Returns []
  | x :: rest =>
      y <~ f x ;;
      ys <~ for_each f rest ;;
      Returns (y :: ys)
  end.

Definition agent_experience_item (exp : item) : outcome str :=
  company <~ item_get exp (u "company") entry_company ;;
  location <~ item_get exp (u "location") entry_location ;;
  position <~ item_get exp (u "position") entry_position ;;
  date <~ item_get exp (u "date") entry_date ;;
  description <~ item_get exp (u "description") entry_description ;;
  Returns
    (u "\resumeSubheading" ++ nl
       ++ u "            {" ++ company ++ u "}{" ++ location ++ u "}" ++ nl
       ++ u "            {" ++ position ++ u "}{" ++ date ++ u "}" ++ nl
       ++ u "            \resumeItemListStart" ++ nl
       ++ u "            \resumeItem{" ++ description ++ u "}" ++ nl
       ++ u "            \resumeItemListEnd").

(** [ResumeStructureAgent._format_experience] *)
Definition _format_experience (experiences : list item) : outcome str :=
  items <~ for_each agent_experience_item (firstn 3 experiences) ;;
  Returns
    (u "\resumeSubHeadingListStart" ++ nl ++ join nl items
       ++ nl ++ u "\resumeSubHeadingListEnd").

Definition agent_project_item (proj : item) : outcome str :=
  name <~ item_get proj (u "name") entry_name ;;
  platform <~ item_get proj (u "platform") entry_platform ;;
  technologies <~ item_get proj (u "technologies") entry_technologies ;;
  description <~ item_get proj (u "description") entry_description ;;
  Returns
    (u "\resumeSubheading" ++ nl
       ++ u "                {" ++ name ++ u "}{" ++ platform ++ u "}" ++ nl
       ++ u "                {Project}{" ++ join (u ", ") technologies
       ++ u "}" ++ nl
       ++ u "                \resumeItemListStart" ++ nl
       ++ u "                \resumeItem{" ++ description ++ u "}" ++ nl
       ++ u "                \resumeItemListEnd").

(** [ResumeStructureAgent._format_projects] *)
Definition _format_projects (projects : list item) : outcome str :=
  items <~ for_each agent_project_item (firstn 2 projects) ;;
  Returns
    (u "\resumeSubHeadingListStart" ++ nl ++ join nl items
       ++ nl ++ u "\resumeSubHeadingListEnd").


(** ** [ResumeWorkflow] (agents/resume_agents.py) *)

Section ResumeWorkflowDef.

Variable isprintable_non_ascii : char -> bool.







End ResumeWorkflowDef.

(** * Notions used in the statements *)

(** ** Strings *)

(** What [replace] does to one character when [old] is the one-character
    string [c]. *)
Definition replace_char (c : char) (new : str) (x : char) : str :=
  if char_eqb c x then new else [x].

Definition single_char_keys (table : list (str * str)) : Prop :=
  Forall (fun kv => exists c, fst kv = [c]) table.

(** The strings of [names] are pairwise different. *)
Fixpoint all_distinct (names : list str) : bool :=
  match names with
  | [] => true
  | x :: rest => negb (str_in x rest) && all_distinct rest
  end.

(** [text] neither starts nor ends with a whitespace character. *)
Definition no_outer_whitespace (text : str) : bool :=
  match text with
  | [] => true
  | c :: _ => negb (isspace c) && negb (isspace (last text c))
  end.

(** What [escape_latex] writes for one character of its input, before the
    final [strip()]. *)
Definition escape_char (ip : char -> bool) (c : char) : str :=
  if is_ascii c then
    if char_eqb 92 c then u "\textbackslash\{\}"
    else if char_eqb 38 c then u "\&"
    else if char_eqb 37 c then u "\%"
    else if char_eqb 36 c then u "\$"
    else if char_eqb 35 c then u "\#"
    else if char_eqb 95 c then u "\_"
    else if char_eqb 123 c then u "\{"
    else if char_eqb 125 c then u "\}"
    else if char_eqb 126 c then u "\textasciitilde{}"
    else if char_eqb 94 c then u "\textasciicircum{}"
    else if char_eqb 60 c then u "\textless{}"
    else if char_eqb 62 c then u "\textgreater{}"
    else if isprintable ip c then [c] else []
  else [].

(** What [sanitize] writes for one character of its input. *)
Definition sanitize_char (c : char) : str :=
  if is_ascii c then
    if char_eqb 38 c then u "\textbackslash{}&"
    else if char_eqb 37 c then u "\textbackslash{}%"
    else if char_eqb 36 c then u "\textbackslash{}$"
    else if char_eqb 35 c then u "\textbackslash{}#"
    else if char_eqb 95 c then u "\textbackslash{}_"
    else if char_eqb 123 c then u "\textbackslash{}{"
    else if char_eqb 125 c then u "\textbackslash{}}"
    else if char_eqb 126 c then u "\textbackslash{}textasciitilde{}"
    else if char_eqb 94 c then u "\textbackslash{}textasciicircum{}"
    else if char_eqb 92 c then u "\textbackslash{}"
    else if char_eqb 60 c then u "\textless{}"
    else if char_eqb 62 c then u "\textgreater{}"
    else if char_eqb 124 c then u "$|$"
    else [c]
  else [].

(** No "h" of [text] is directly followed by an opening brace. *)
Fixpoint no_h_brace (text : str) : bool :=
  match text with
  | [] => true
  | x :: rest =>
      negb (char_eqb 104 x
            && match rest with
               | y :: _ => char_eqb 123 y
               | [] => false
               end)
      && no_h_brace rest
  end.

Definition head_not_brace (text : str) : bool :=
  match text with
  | [] => true
  | y :: _ => negb (char_eqb 123 y)
  end.

(** ** Order of the repositories *)

(** [x] is not made to pass [y] by [sorted]. *)
Definition ordered_before {A K : Type} (ltb : K -> K -> bool) (key : A -> K)
    (reverse : bool) (x y : A) : Prop :=
  stays_before ltb key reverse x y = true.

(** [x] may stand before [y] in the descending order of
    [(stargazers_count, forks_count)]: more stars, or as many stars and at
    least as many forks. *)
Definition ranks_at_least (x y : Repo) : Prop :=
  (fst (sort_key y) < fst (sort_key x))%Z
  \/ (fst (sort_key x) = fst (sort_key y)
      /\ (snd (sort_key y) <= snd (sort_key x))%Z).

Definition has_sort_key (k : Z * Z) (x : Repo) : bool :=
  (fst (sort_key x) =? fst k)%Z && (snd (sort_key x) =? snd k)%Z.

(** ** One repository in the loop *)

(** What the loop body computes for one repository, read off the network
    (with the defaults of a failed request where the loop body would have
    raised). *)
Definition repo_languages (net : Network) (repo : Repo) : list str :=
  match get_languages net (repo_languages_url repo) with
  | Some resp =>
      if (status_code resp =? 200)%Z then List.map fst (json resp) else []
  | None => []
  end.

Definition repo_commit_count (net : Network) (repo : Repo) : nat :=
  match get_commits net (hd [] (split_char 123 (repo_commits_url repo))) with
  | Some resp =>
      if (status_code resp =? 200)%Z then List.length (json resp) else 0%nat
  | None => 0%nat
  end.

Definition repo_stars (repo : Repo) : Z :=
  dict_get (repo_stargazers_count repo) 0%Z.

Definition significant (net : Network) (repo : Repo) : bool :=
  (0 <? repo_stars repo)%Z || (10 <? repo_commit_count net repo)%nat.

Definition description_of (net : Network) (repo : Repo) : str :=
  compose_description repo (repo_languages net repo)
    (repo_commit_count net repo) (repo_stars repo).

Definition project_of (net : Network) (repo : Repo) : ProjectData :=
  {| proj_name := repo_name repo;
     proj_description := description_of net repo;
     proj_languages := repo_languages net repo;
     proj_stars := repo_stars repo;
     proj_commits := repo_commit_count net repo;
     proj_url := repo_html_url repo |}.

Definition experience_of (net : Network) (repo : Repo) : ExpData :=
  {| exp_company :=
       replace (u "-") (u " ") (replace (u "_") (u " ") (repo_name repo));
     exp_position := u "Lead Developer";
     exp_date :=
       slice_to 7 (repo_created_at repo) ++ u " - "
         ++ slice_to 7 (repo_updated_at repo);
     exp_description := description_of net repo |}.

(** The requests of the loop body succeed for [repo] and its star count is
    present. *)
Definition fetchable (net : Network) (repo : Repo) : bool :=
  match get_languages net (repo_languages_url repo),
        get_commits net (hd [] (split_char 123 (repo_commits_url repo))),
        repo_stargazers_count repo with
  | Some _, Some _, Some _ => true
  | _, _, _ => false
  end.

(** The repositories the loop turns into entries, in visiting order. *)
Definition chosen_repos (net : Network) (repos : list Repo) : list Repo :=
  filter (significant net) (filter not_fork (sorted_repos repos)).

(** ** Sample data *)

(** A repository object with the given name, star count and fork count,
    not a fork, and nothing else of note. *)
Definition repo_with (name : str) (stars forks : Z) : Repo :=
  {| repo_name := name;
     repo_description := Some PyNone;
     repo_fork := Some false;
     repo_stargazers_count := Some stars;
     repo_forks_count := Some forks;
     repo_languages_url := u "languages/" ++ name;
     repo_commits_url := u "commits/" ++ name ++ u "{/sha}";
     repo_html_url := u "https://github.com/octocat/" ++ name;
     repo_created_at := u "2023-01-15T10:00:00Z";
     repo_updated_at := u "2024-02-20T10:00:00Z" |}.

Definition with_fork (repo : Repo) : Repo :=
  {| repo_name := repo_name repo;
     repo_description := repo_description repo;
     repo_fork := Some true;
     repo_stargazers_count := repo_stargazers_count repo;
     repo_forks_count := repo_forks_count repo;
     repo_languages_url := repo_languages_url repo;
     repo_commits_url := repo_commits_url repo;
     repo_html_url := repo_html_url repo;
     repo_created_at := repo_created_at repo;
     repo_updated_at := repo_updated_at repo |}.

Definition with_description (d : option pyval) (repo : Repo) : Repo :=
  {| repo_name := repo_name repo;
     repo_description := d;
     repo_fork := repo_fork repo;
     repo_stargazers_count := repo_stargazers_count repo;
     repo_forks_count := repo_forks_count repo;
     repo_languages_url := repo_languages_url repo;
     repo_commits_url := repo_commits_url repo;
     repo_html_url := repo_html_url repo;
     repo_created_at := repo_created_at repo;
     repo_updated_at := repo_updated_at repo |}.

(** A network that answers every request with status 200: the same user
    and repository list whatever the user name, the same languages and the
    same number of commits whatever the repository. *)
Definition static_net (user : UserData) (repos : list Repo)
    (languages : list (str * Z)) (commits : nat) : Network :=
  {| get_user := fun _ => Some {| status_code := 200%Z; json := user |};
     get_repos := fun _ => Some {| status_code := 200%Z; json := repos |};
     get_languages :=
       fun _ => Some {| status_code := 200%Z; json := languages |};
     get_commits :=
       fun _ => Some {| status_code := 200%Z;
                        json := repeat (u "sha") commits |} |}.

Definition octocat : UserData :=
  {| user_name := Some (PyStr (u "The Octocat"));
     user_email := Some PyNone;
     user_location := Some (PyStr (u "San Francisco"));
     user_bio := Some (PyStr (u "Student"));
     user_blog := Some (PyStr []);
     user_company := Some PyNone;
     user_followers := Some 3%Z;
     user_following := Some 0%Z;
     user_public_repos := Some 4%Z |}.

Definition octocat_url : str := u "https://github.com/octocat".

Definition python_only : list (str * Z) := [(u "Python", 4096%Z)].

Definition rust_only : list (str * Z) := [(u "Rust", 2048%Z)].

Definition four_starred : list Repo :=
  [ repo_with (u "alpha") 4 0; repo_with (u "beta") 3 0;
    repo_with (u "gamma") 2 0; repo_with (u "delta") 1 0 ].

Definition three_ranked : list Repo :=
  [ repo_with (u "A") 5 1; repo_with (u "B") 5 3; repo_with (u "C") 2 9 ].

Definition with_fork_list : list Repo :=
  [ repo_with (u "own") 1 0; with_fork (repo_with (u "forked") 50 7) ].

Definition undescribed : Repo := repo_with (u "resume") 10 0.

(** ** Further notions *)



(** Underscores and hyphens become spaces. *)
Definition space_out (c : char) : char :=
  if char_eqb 95 c then 32 else if char_eqb 45 c then 32 else c.


(** The characters that have to follow a backslash in LaTeX text. *)
Definition needs_backslash (c : char) : bool :=
  char_eqb 38 c || char_eqb 37 c || char_eqb 36 c || char_eqb 35 c
  || char_eqb 95 c.

(** The characters [escape_latex] replaces by a command. *)
Definition replaced_by_command (c : char) : bool :=
  char_eqb 60 c || char_eqb 62 c || char_eqb 126 c || char_eqb 94 c.

(** Every character of [text] but the first that needs a backslash
    follows one. *)
Fixpoint specials_escaped (text : str) : bool :=
  match text with
  | [] => true
  | x :: rest =>
      match rest with
      | y :: _ => negb (needs_backslash y) || char_eqb 92 x
      | [] => true
      end
      && specials_escaped rest
  end.

Definition head_plain (text : str) : bool :=
  match text with
  | [] => true
  | y :: _ => negb (needs_backslash y)
  end.

(** [c] is a key of the [replacements] dict of [sanitize]. *)
Definition rewritten_by_sanitize (c : char) : bool :=
  existsb (fun kv => str_eqb (fst kv) [c]) Sanitize.replacements.

(** An ASCII character that [sanitize] leaves alone. *)
Definition plain_for_sanitize (c : char) : bool :=
  is_ascii c && negb (rewritten_by_sanitize c).





(** The experience entry of the extracted facts as a dict of sanitised
    texts, the location being that of the profile. *)
Definition experience_entry (d : FinalData) (e : ExpData) : item :=
  IDict
    {| entry_company := Some (sanitize (PyStr (exp_company e)));
       entry_location := Some (sanitize (fd_location d));
       entry_position := Some (sanitize (PyStr (exp_position e)));
       entry_date := Some (sanitize (PyStr (exp_date e)));
       entry_description := Some (sanitize (PyStr (exp_description e)));
       entry_name := None;
       entry_platform := None;
       entry_technologies := None |}.

(** The project of the extracted facts as a dict of sanitised texts, its
    languages joined before they are sanitised. *)
Definition project_entry (p : ProjectData) : item :=
  IDict
    {| entry_company := None;
       entry_location := None;
       entry_position := None;
       entry_date := None;
       entry_description := Some (sanitize (PyStr (proj_description p)));
       entry_name := Some (sanitize (PyStr (proj_name p)));
       entry_platform := Some (u "GitHub");
       entry_technologies :=
         Some [sanitize (PyStr (join (u ", ") (proj_languages p)))] |}.


(** ** Blocks and fragments that keep apart *)

(** [a] and [b] differ at a position that both have: neither is a prefix
    of the other. *)
Fixpoint clash (a b : str) : bool :=
  match a, b with
  | x :: a', y :: b' => negb (char_eqb x y) || clash a' b'
  | _, _ => false
  end.

(** [p] holds of every non-empty suffix of [s]. *)
Fixpoint every_suffix (p : str -> bool) (s : str) : bool :=
  match s with
  | [] => true
  | _ :: s' => p s && every_suffix p s'
  end.

(** The block of [kv] can neither be mistaken for the block of [kv'], nor
    end where that block or its fragment starts, nor start anywhere in the
    fragment of [kv']. *)
Definition keeps_apart (kv kv' : str * str) : Prop :=
  clash (fst kv) (fst kv') = true
  /\ every_suffix (fun s => clash s (fst kv') && clash s (snd kv'))
       (tl (fst kv)) = true
  /\ every_suffix (clash (fst kv)) (snd kv') = true.

Definition separate_table (table : list (str * str)) : Prop :=
  NoDup table
  /\ (forall kv, In kv table -> fst kv <> [])
  /\ (forall kv kv', In kv table -> In kv' table -> kv <> kv' ->
                     keeps_apart kv kv').

(** The texts [sanitize] writes for the characters it rewrites. *)
Definition sanitize_chunks : list str :=
  [ u "\textbackslash{}&"; u "\textbackslash{}%"; u "\textbackslash{}$";
    u "\textbackslash{}#"; u "\textbackslash{}_"; u "\textbackslash{}{";
    u "\textbackslash{}}"; u "\textbackslash{}textasciitilde{}";
    u "\textbackslash{}textasciicircum{}"; u "\textbackslash{}";
    u "\textless{}"; u "\textgreater{}"; u "$|$" ].


(** The opening line of the three list sections. *)
Definition list_start : str := u "\resumeSubHeadingListStart".

(** A profile with one experience, one project and a name that needs
    escaping, and a template holding four of the six blocks. *)
Definition ada : FinalData :=
  {| fd_name := PyStr (u "Ada_L & Co");
     fd_email := PyStr (u "ada@example.org");
     fd_phone := [];
     fd_location := PyStr (u "London");
     fd_bio := PyNone;
     fd_skills := [u "Python"; u "Rust"];
     fd_projects :=
       [ {| proj_name := u "engine"; proj_description := u "An {engine}";
            proj_languages := [u "Rust"]; proj_stars := 2%Z;
            proj_commits := 12%nat; proj_url := u "https://github.com/ada/engine" |} ];
     fd_experience :=
       [ {| exp_company := u "engine"; exp_position := u "Lead Developer";
            exp_date := u "2020-01 - 2021-02";
            exp_description := u "An {engine}" |} ];
     fd_education := [];
     fd_profile_url := u "https://github.com/ada";
     fd_blog := PyNone; fd_company := PyNone;
     fd_followers := 0%Z; fd_following := 0%Z; fd_public_repos := 1%Z |}.

Definition two_column_template : str :=
  u "\documentclass{article}" ++ nl
    ++ TemplateBlock.name ++ nl
    ++ TemplateBlock.contact ++ nl
    ++ u "\section{Experience}" ++ nl
    ++ TemplateBlock.experience ++ nl
    ++ u "\section{Projects}" ++ nl
    ++ TemplateBlock.projects ++ nl
    ++ TemplateBlock.name.
(** * Properties *)

(** ** Strings *)

Example replace_multi :
  replace (u "ab") (u "X") (u "aababcab") = u "aXXcX".
Proof. reflexivity. Qed.

Example replace_overlap :
  replace (u "aa") (u "b") (u "aaaaa") = u "bba".
Proof. reflexivity. Qed.

Example replace_empty_old :
  replace [] (u "-") (u "abc") = u "-a-b-c-".
Proof. reflexivity. Qed.

Example split_last :
  last (split_char 47 (u "https://github.com/octocat")) [] = u "octocat".
Proof. reflexivity. Qed.

Example str_of_Z_ex : str_of_Z 1205 = u "1205" /\ str_of_Z 0 = u "0".
Proof. split; reflexivity. Qed.

Lemma char_eqb_eq (a b : char) : char_eqb a b = true <-> a = b.
Proof. apply N.eqb_eq. Qed.

Lemma str_eqb_eq (a b : str) : str_eqb a b = true <-> a = b.
Proof.
  revert b; induction a as [|x a IH]; intros [|y b]; simpl;
    try (split; [discriminate | discriminate]); try tauto.
  rewrite andb_true_iff, char_eqb_eq, IH.
  split; [intros [-> ->]; reflexivity | intros H; inversion H; auto].
Qed.

Lemma str_eqb_refl (a : str) : str_eqb a a = true.
Proof. apply str_eqb_eq; reflexivity. Qed.

Lemma startswith_app (old rest : str) : startswith old (old ++ rest) = true.
Proof.
  induction old as [|x old IH]; simpl; [reflexivity|].
  unfold char_eqb; rewrite N.eqb_refl; exact IH.
Qed.

Lemma contains_startswith (old text : str) :
  startswith old text = true -> contains old text = true.
Proof. intros H; destruct text; cbn [contains]; rewrite H; reflexivity. Qed.

Lemma contains_app (old pre post : str) :
  contains old (pre ++ old ++ post) = true.
Proof.
  induction pre as [|c pre IH].
  - rewrite app_nil_l. apply contains_startswith, startswith_app.
  - cbn [app contains]. rewrite IH; apply orb_true_r.
Qed.

(** The dict literals of the source have no repeated key, so that each
    is the list of its items. *)
Lemma dict_keys_distinct (d : FinalData) :
  all_distinct (List.map fst Sanitize.replacements) = true
  /\ all_distinct (List.map fst EscapeLatex.latex_special_chars) = true
  /\ all_distinct (List.map fst (replacements d)) = true.
Proof. repeat split; vm_compute; reflexivity. Qed.

Lemma replace_single (c : char) (new text : str) :
  replace [c] new text = flat_map (replace_char c new) text.
Proof.
  unfold replace.
  induction text as [|x text IH]; [reflexivity|].
  cbn [replace_from flat_map startswith]. unfold replace_char at 1.
  destruct (char_eqb c x); cbn [andb List.length Nat.sub];
    rewrite IH; reflexivity.
Qed.

Lemma replace_single_app (c : char) (new a b : str) :
  replace [c] new (a ++ b) = replace [c] new a ++ replace [c] new b.
Proof. rewrite !replace_single; apply flat_map_app. Qed.

Lemma replace_each_app (table : list (str * str)) (a b : str) :
  single_char_keys table ->
  replace_each table (a ++ b) = replace_each table a ++ replace_each table b.
Proof.
  unfold replace_each. intros H; revert a b.
  induction H as [|[k v] table [c Hc] _ IH]; intros a b; [reflexivity|].
  simpl in *. subst k. rewrite replace_single_app. apply IH.
Qed.

Lemma replace_from_Forall (P : char -> Prop) (old new : str) :
  Forall P new ->
  forall text skip, Forall P text -> Forall P (replace_from old new skip text).
Proof.
  intros Hnew text; induction text as [|c rest IH]; intros skip Ht;
    [constructor|].
  inversion Ht; subst. cbn [replace_from].
  destruct skip; [|auto].
  destruct (startswith old (c :: rest)).
  - apply Forall_app; split; auto.
  - constructor; auto.
Qed.

Lemma replace_Forall (P : char -> Prop) (old new text : str) :
  Forall P new -> Forall P text -> Forall P (replace old new text).
Proof.
  intros Hnew Ht. destruct old as [|o old]; cbn [replace].
  - apply Forall_app; split; [|exact Hnew].
    apply Forall_flat_map. revert Ht; apply Forall_impl.
    intros c Hc. apply Forall_app; split; [exact Hnew | constructor; auto].
  - apply replace_from_Forall; assumption.
Qed.

Lemma replace_each_Forall (P : char -> Prop) (table : list (str * str)) :
  Forall (fun kv => Forall P (snd kv)) table ->
  forall text, Forall P text -> Forall P (replace_each table text).
Proof.
  unfold replace_each.
  induction 1 as [|kv table Hkv _ IH]; intros text Ht; [exact Ht|].
  simpl. apply IH. apply replace_Forall; assumption.
Qed.

Lemma contains_after3 (old a b c post : str) :
  contains old (a ++ b ++ c ++ old ++ post) = true.
Proof.
  replace (a ++ b ++ c ++ old ++ post) with ((a ++ b ++ c) ++ old ++ post)
    by (rewrite <- !app_assoc; reflexivity).
  apply contains_app.
Qed.

Lemma replace_absent (old new text : str) :
  contains old text = false -> replace old new text = text.
Proof.
  destruct old as [|o old].
  - destruct text; discriminate.
  - cbn [replace]. induction text as [|c rest IH]; [reflexivity|].
    cbn [contains]. rewrite orb_false_iff. intros [H1 H2].
    cbn [replace_from]. rewrite H1, IH by exact H2. reflexivity.
Qed.

(** ** [strip] *)

Lemma lstrip_suffix (t : str) : exists p, t = p ++ lstrip t.
Proof.
  induction t as [|c t [p Hp]]; [exists []; reflexivity|].
  cbn [lstrip]. destruct (isspace c).
  - exists (c :: p). cbn [app]. f_equal. exact Hp.
  - exists []. reflexivity.
Qed.

Lemma lstrip_head (t : str) (c : char) (r : str) :
  lstrip t = c :: r -> isspace c = false.
Proof.
  induction t as [|x t IH]; cbn [lstrip]; [discriminate|].
  destruct (isspace x) eqn:E; [exact IH|].
  intros H; inversion H; subst; exact E.
Qed.

Lemma lstrip_app_nonspace (a : str) (h : char) (t : str) :
  isspace h = false -> lstrip (a ++ h :: t) = lstrip a ++ h :: t.
Proof.
  intros Hh. induction a as [|x a IH]; cbn [app lstrip].
  - rewrite Hh. reflexivity.
  - destruct (isspace x); [exact IH | reflexivity].
Qed.

Lemma rstrip_app_nonspace (t : str) (z : char) (b : str) :
  isspace z = false -> rstrip (t ++ z :: b) = t ++ z :: rstrip b.
Proof.
  intros Hz. unfold rstrip.
  rewrite rev_app_distr. cbn [rev]. rewrite <- app_assoc. cbn [app].
  rewrite lstrip_app_nonspace by exact Hz.
  rewrite rev_app_distr. cbn [rev]. rewrite rev_involutive, <- app_assoc.
  reflexivity.
Qed.

Lemma rstrip_prefix (t : str) : exists s, t = rstrip t ++ s.
Proof.
  unfold rstrip. destruct (lstrip_suffix (rev t)) as [p Hp].
  exists (rev p). rewrite <- rev_app_distr, <- Hp, rev_involutive.
  reflexivity.
Qed.

Lemma lstrip_Forall (P : char -> Prop) (t : str) :
  Forall P t -> Forall P (lstrip t).
Proof.
  intros H. destruct (lstrip_suffix t) as [p Hp].
  rewrite Hp in H. apply Forall_app in H. tauto.
Qed.

Lemma strip_Forall (P : char -> Prop) (t : str) :
  Forall P t -> Forall P (strip t).
Proof.
  intros H. unfold strip, rstrip.
  apply Forall_rev, lstrip_Forall, Forall_rev, lstrip_Forall, H.
Qed.

Lemma strip_no_outer_whitespace (t : str) :
  no_outer_whitespace (strip t) = true.
Proof.
  unfold no_outer_whitespace.
  destruct (strip t) as [|c out] eqn:E; [reflexivity|].
  apply andb_true_iff; split; apply negb_true_iff.
  - unfold strip in E. destruct (rstrip_prefix (lstrip t)) as [s Hs].
    rewrite E in Hs. cbn [app] in Hs. exact (lstrip_head _ _ _ Hs).
  - unfold strip, rstrip in E.
    assert (H : lstrip (rev (lstrip t)) = rev (c :: out))
      by (rewrite <- E, rev_involutive; reflexivity).
    destruct (rev (c :: out)) as [|z r] eqn:R.
    + apply (f_equal (@List.length _)) in R. rewrite length_rev in R.
      discriminate.
    + apply (f_equal (@rev _)) in R. rewrite rev_involutive in R.
      cbn [rev] in R. rewrite R, last_last.
      exact (lstrip_head _ _ _ H).
Qed.

Lemma strip_around (a m b : str) (h z : char) (t t' : str) :
  m = h :: t -> m = t' ++ [z] -> isspace h = false -> isspace z = false ->
  strip (a ++ m ++ b) = lstrip a ++ m ++ rstrip b.
Proof.
  intros Hh Hz Sh Sz. unfold strip.
  assert (E : lstrip (a ++ m ++ b) = lstrip a ++ m ++ b).
  { rewrite Hh. cbn [app]. apply lstrip_app_nonspace; exact Sh. }
  rewrite E, Hz.
  replace (lstrip a ++ (t' ++ [z]) ++ b) with ((lstrip a ++ t') ++ z :: b)
    by (rewrite <- !app_assoc; reflexivity).
  rewrite rstrip_app_nonspace by exact Sz.
  rewrite <- !app_assoc. reflexivity.
Qed.

(** ** The two sanitisers *)

Lemma filter_Forall_true {A : Type} (f : A -> bool) (l : list A) :
  Forall (fun x => f x = true) (filter f l).
Proof. apply Forall_forall. intros x Hx. apply filter_In in Hx. tauto. Qed.

Lemma is_ascii_lt (c : char) : is_ascii c = true <-> c < 128.
Proof. apply N.ltb_lt. Qed.

Lemma ascii_replacements (table : list (str * str)) :
  forallb (fun kv => forallb is_ascii (snd kv)) table = true ->
  Forall (fun kv => Forall (fun c => c < 128) (snd kv)) table.
Proof.
  intros H. apply Forall_forall. intros kv Hkv.
  rewrite forallb_forall in H. specialize (H kv Hkv).
  rewrite forallb_forall in H. apply Forall_forall.
  intros c Hc. apply is_ascii_lt. auto.
Qed.

Lemma sanitize_ascii (v : pyval) : Forall (fun c => c < 128) (sanitize v).
Proof.
  unfold sanitize. destruct (negb (truthy v)); [constructor|].
  apply replace_each_Forall.
  - apply ascii_replacements. reflexivity.
  - unfold remove_non_ascii.
    eapply Forall_impl; [|apply filter_Forall_true].
    intros c; apply is_ascii_lt.
Qed.

Lemma fold_left_skip {A B : Type} (f : A -> B -> A) (keep : B -> bool)
    (l : list B) (a : A) :
  fold_left (fun acc x => if keep x then f acc x else acc) l a
  = fold_left f (filter keep l) a.
Proof.
  revert a; induction l as [|x l IH]; intros a; [reflexivity|].
  cbn [fold_left filter]. destruct (keep x); cbn [fold_left]; apply IH.
Qed.

Lemma escape_special_chars_table (text : str) :
  escape_special_chars text
  = replace_each
      (filter (fun kv => negb (str_eqb (fst kv) (u "\")))
         EscapeLatex.latex_special_chars)
      text.
Proof.
  unfold escape_special_chars, replace_each.
  exact (fold_left_skip (fun acc kv => replace (fst kv) (snd kv) acc) _ _ _).
Qed.

Lemma escape_special_chars_app (a b : str) :
  escape_special_chars (a ++ b)
  = escape_special_chars a ++ escape_special_chars b.
Proof.
  rewrite !escape_special_chars_table. apply replace_each_app.
  unfold single_char_keys.
  repeat (constructor; [eexists; reflexivity|]). constructor.
Qed.

Lemma escape_special_chars_ascii (text : str) :
  Forall (fun c => c < 128) text ->
  Forall (fun c => c < 128) (escape_special_chars text).
Proof.
  rewrite escape_special_chars_table. apply replace_each_Forall.
  apply ascii_replacements. reflexivity.
Qed.

Section EscapeLatexFacts.

Variable ip : char -> bool.

Lemma escape_latex_unstripped_app (a b : str) :
  escape_latex_unstripped ip (a ++ b)
  = escape_latex_unstripped ip a ++ escape_latex_unstripped ip b.
Proof.
  unfold escape_latex_unstripped. change (u "\") with [92].
  rewrite filter_app, replace_single_app, escape_special_chars_app,
    filter_app.
  reflexivity.
Qed.

Lemma escape_latex_unstripped_ascii (text : str) :
  Forall (fun c => c < 128) (escape_latex_unstripped ip text).
Proof.
  unfold escape_latex_unstripped.
  apply Forall_forall. intros c Hc. apply filter_In in Hc.
  destruct Hc as [Hc _]. revert c Hc. apply Forall_forall.
  apply escape_special_chars_ascii, replace_Forall.
  - apply Forall_forall. intros c Hc. apply is_ascii_lt.
    revert c Hc. apply forallb_forall. reflexivity.
  - eapply Forall_impl; [|apply filter_Forall_true].
    intros c; apply is_ascii_lt.
Qed.

Lemma escape_latex_unstripped_printable (text : str) :
  Forall (fun c => isprintable ip c = true) (escape_latex_unstripped ip text).
Proof. apply filter_Forall_true. Qed.

Lemma escape_latex_strip (text : str) :
  escape_latex ip text = strip (escape_latex_unstripped ip text).
Proof. destruct text; reflexivity. Qed.

End EscapeLatexFacts.

Lemma filter_idem {A : Type} (f : A -> bool) (l : list A) :
  filter f (filter f l) = filter f l.
Proof.
  induction l as [|x l IH]; [reflexivity|].
  cbn [filter]. destruct (f x) eqn:E; cbn [filter]; rewrite ?E, IH;
    reflexivity.
Qed.

Lemma sanitize_str (s : str) :
  sanitize (PyStr s) = replace_each Sanitize.replacements (remove_non_ascii s).
Proof. destruct s; reflexivity. Qed.

(** [sanitize] works character by character. *)
Lemma sanitize_app (a b : str) :
  sanitize (PyStr (a ++ b)) = sanitize (PyStr a) ++ sanitize (PyStr b).
Proof.
  rewrite !sanitize_str. unfold remove_non_ascii. rewrite filter_app.
  apply replace_each_app. unfold single_char_keys.
  repeat (constructor; [eexists; reflexivity|]). constructor.
Qed.

Lemma sanitize_ascii_part (s : str) :
  sanitize (PyStr s) = sanitize (PyStr (remove_non_ascii s)).
Proof.
  rewrite !sanitize_str. unfold remove_non_ascii. rewrite filter_idem.
  reflexivity.
Qed.

Lemma escape_latex_ascii_part (ip : char -> bool) (text : str) :
  escape_latex ip text = escape_latex ip (filter is_ascii text).
Proof.
  rewrite !escape_latex_strip. unfold escape_latex_unstripped.
  rewrite filter_idem. reflexivity.
Qed.

Lemma replace_one (k : char) (new : str) (c : char) :
  replace [k] new [c] = if char_eqb k c then new else [c].
Proof.
  rewrite replace_single. cbn [flat_map]. unfold replace_char.
  destruct (char_eqb k c); [apply app_nil_r | reflexivity].
Qed.

(** Splits on the next character test of a chain of one-character
    replacements applied to the one-character text [c]. *)
Ltac next_replacement c :=
  rewrite replace_one;
  match goal with
  | |- context [char_eqb ?k c] => destruct (char_eqb k c); [reflexivity|]
  end.

Lemma escape_latex_unstripped_one (ip : char -> bool) (c : char) :
  escape_latex_unstripped ip [c] = escape_char ip c.
Proof.
  unfold escape_latex_unstripped, escape_char. cbn [filter].
  destruct (is_ascii c) eqn:A; [|reflexivity].
  rewrite escape_special_chars_table.
  let t := eval vm_compute in
      (filter (fun kv => negb (str_eqb (fst kv) (u "\")))
         EscapeLatex.latex_special_chars) in
  change (filter (fun kv => negb (str_eqb (fst kv) (u "\")))
            EscapeLatex.latex_special_chars) with t.
  change (u "\") with [92].
  unfold replace_each. cbn [fold_left fst snd].
  repeat next_replacement c.
  cbn [filter]. destruct (isprintable ip c); reflexivity.
Qed.

(** [escape_latex] before its [strip()], character by character. *)
Lemma escape_latex_unstripped_chars (ip : char -> bool) (text : str) :
  escape_latex_unstripped ip text = flat_map (escape_char ip) text.
Proof.
  induction text as [|c text IH]; [reflexivity|].
  change (c :: text) with ([c] ++ text).
  rewrite escape_latex_unstripped_app, escape_latex_unstripped_one, IH.
  reflexivity.
Qed.

Lemma sanitize_one (c : char) : sanitize (PyStr [c]) = sanitize_char c.
Proof.
  rewrite sanitize_str. unfold remove_non_ascii, sanitize_char.
  cbn [filter]. destruct (is_ascii c); [|reflexivity].
  let t := eval vm_compute in Sanitize.replacements in
  change Sanitize.replacements with t.
  unfold replace_each. cbn [fold_left fst snd].
  repeat next_replacement c.
  reflexivity.
Qed.

(** [sanitize], character by character. *)
Lemma sanitize_chars (text : str) :
  sanitize (PyStr text) = flat_map sanitize_char text.
Proof.
  induction text as [|c text IH]; [reflexivity|].
  change (c :: text) with ([c] ++ text).
  rewrite sanitize_app, sanitize_one, IH. reflexivity.
Qed.

Lemma startswith_inv (old text : str) :
  startswith old text = true -> exists rest, text = old ++ rest.
Proof.
  revert text. induction old as [|x old IH]; intros text H.
  - exists text. reflexivity.
  - destruct text as [|y text]; [discriminate|].
    cbn [startswith] in H. apply andb_true_iff in H. destruct H as [E H].
    apply char_eqb_eq in E. subst y.
    destruct (IH _ H) as [rest ->]. exists rest. reflexivity.
Qed.

Lemma no_h_brace_app (a b : str) :
  no_h_brace a = true -> no_h_brace b = true -> head_not_brace b = true ->
  no_h_brace (a ++ b) = true.
Proof.
  intros Ha Hb Hh. induction a as [|x a IH]; [exact Hb|].
  cbn [app no_h_brace] in *. apply andb_true_iff in Ha.
  destruct Ha as [H1 H2]. rewrite (IH H2), andb_true_r.
  destruct a as [|y a]; [|exact H1].
  cbn [app]. destruct b as [|z b]; [exact H1|].
  cbn [head_not_brace] in Hh. apply negb_true_iff in Hh. rewrite Hh.
  rewrite andb_false_r. reflexivity.
Qed.

Lemma head_not_brace_app (a b : str) :
  head_not_brace a = true -> head_not_brace b = true ->
  head_not_brace (a ++ b) = true.
Proof. destruct a; auto. Qed.

Lemma no_h_brace_suffix (a b : str) :
  no_h_brace (a ++ b) = true -> no_h_brace b = true.
Proof.
  induction a as [|x a IH]; [auto|].
  cbn [app no_h_brace]. intros H. apply andb_true_iff in H. tauto.
Qed.

Lemma no_h_brace_prefix (a b : str) :
  no_h_brace (a ++ b) = true -> no_h_brace a = true.
Proof.
  induction a as [|x a IH]; [reflexivity|].
  cbn [app no_h_brace]. intros H. apply andb_true_iff in H.
  destruct H as [H1 H2]. rewrite (IH H2), andb_true_r.
  destruct a as [|y a]; [|exact H1].
  rewrite andb_false_r. reflexivity.
Qed.

Lemma escape_char_braces (ip : char -> bool) (c : char) :
  no_h_brace (escape_char ip c) = true
  /\ head_not_brace (escape_char ip c) = true.
Proof.
  unfold escape_char.
  destruct (is_ascii c); [|split; reflexivity].
  repeat match goal with
         | |- context [if char_eqb ?k c then _ else _] =>
             destruct (char_eqb k c) eqn:?; [split; reflexivity|]
         end.
  destruct (isprintable ip c); [|split; reflexivity].
  cbn [no_h_brace head_not_brace]. rewrite andb_false_r.
  split; [reflexivity|].
  match goal with H : char_eqb 123 c = false |- _ => rewrite H end.
  reflexivity.
Qed.

Lemma escape_latex_unstripped_braces (ip : char -> bool) (text : str) :
  no_h_brace (escape_latex_unstripped ip text) = true
  /\ head_not_brace (escape_latex_unstripped ip text) = true.
Proof.
  rewrite escape_latex_unstripped_chars.
  induction text as [|c text [IH1 IH2]]; [split; reflexivity|].
  cbn [flat_map]. destruct (escape_char_braces ip c) as [H1 H2].
  split; [apply no_h_brace_app | apply head_not_brace_app]; assumption.
Qed.

Lemma no_h_brace_strip (text : str) :
  no_h_brace text = true -> no_h_brace (strip text) = true.
Proof.
  intros H. unfold strip.
  destruct (lstrip_suffix text) as [p Hp]. rewrite Hp in H.
  apply no_h_brace_suffix in H.
  destruct (rstrip_prefix (lstrip text)) as [q Hq]. rewrite Hq in H.
  exact (no_h_brace_prefix _ _ H).
Qed.

Lemma no_h_brace_textbackslash (text : str) :
  no_h_brace text = true -> contains (u "\textbackslash{}") text = false.
Proof.
  induction text as [|x text IH]; [reflexivity|].
  intros H. cbn [contains].
  destruct (startswith (u "\textbackslash{}") (x :: text)) eqn:S.
  - apply startswith_inv in S. destruct S as [rest E].
    rewrite E in H. cbn in H. discriminate.
  - cbn [orb]. apply IH.
    cbn [no_h_brace] in H. apply andb_true_iff in H. tauto.
Qed.

(** The sibling of [sanitize] handles the backslash first and returns the
    expected text on the spec's example. *)
Lemma escape_latex_example (ip : char -> bool) :
  escape_latex ip (u "A & B_C") = u "A \& B\_C".
Proof. reflexivity. Qed.

(** C2: [sanitize] replaces the backslash tenth, after the entries whose
    replacement strings start with a backslash, so those backslashes are
    escaped again: on "A & B_C" it returns
    "A \textbackslash{}& B\textbackslash{}_C", not "A \& B\_C", and the
    ampersand and the underscore are left without an escaping backslash.
    Character by character, every input goes through [sanitize_char]. *)
Theorem sanitize_reescapes_backslashes :
  forall text : str,
    sanitize (PyStr (u "A & B_C"))
    = u "A \textbackslash{}& B\textbackslash{}_C"
    /\ sanitize (PyStr (u "A & B_C")) <> u "A \& B\_C"
    /\ contains (u "}&") (sanitize (PyStr (u "A & B_C"))) = true
    /\ contains (u "}_") (sanitize (PyStr (u "A & B_C"))) = true
    /\ sanitize (PyStr text) = flat_map sanitize_char text
    /\ sanitize_char 38 = u "\textbackslash{}&"
    /\ sanitize_char 95 = u "\textbackslash{}_".
Proof.
  intros text. split; [reflexivity|]. split; [vm_compute; discriminate|].
  split; [reflexivity|]. split; [reflexivity|].
  split; [apply sanitize_chars|]. split; reflexivity.
Qed.

(** What the two sanitisers do guarantee.  For every input, the output of
    [escape_latex] has no code point of 128 or more, only printable
    characters, and neither leading nor trailing whitespace; the output of
    [sanitize] has no code point of 128 or more; both depend on the ASCII
    characters of the input only, the others being removed first, and both
    return "caf" on "café🎉". *)
Lemma sanitizers_output_ascii :
  forall (ip : char -> bool) (text : str),
    Forall (fun c => c < 128) (escape_latex ip text)
    /\ Forall (fun c => isprintable ip c = true) (escape_latex ip text)
    /\ no_outer_whitespace (escape_latex ip text) = true
    /\ escape_latex ip text = escape_latex ip (filter is_ascii text)
    /\ escape_latex ip (u "caf" ++ [233; 127881]) = u "caf"
    /\ Forall (fun c => c < 128) (sanitize (PyStr text))
    /\ sanitize (PyStr text) = sanitize (PyStr (remove_non_ascii text))
    /\ sanitize (PyStr (u "caf" ++ [233; 127881])) = u "caf".
Proof.
  intros ip text.
  split; [|split; [|split; [|split; [|split; [|split; [|split]]]]]].
  - rewrite escape_latex_strip.
    apply strip_Forall, escape_latex_unstripped_ascii.
  - rewrite escape_latex_strip.
    apply strip_Forall, escape_latex_unstripped_printable.
  - rewrite escape_latex_strip. apply strip_no_outer_whitespace.
  - apply escape_latex_ascii_part.
  - reflexivity.
  - apply sanitize_ascii.
  - apply sanitize_ascii_part.
  - reflexivity.
Qed.

(** C9: [sanitize] of routes/resume.py lacks the last two steps of its
    sibling [escape_latex], the filter on printable characters and the
    final [strip()].  On a tab, the letter a and a space it returns the
    text unchanged, so its output holds a non-printable character and
    ends with whitespace, which the claim excludes for every input;
    [escape_latex] returns "a" on the same text. *)
Theorem sanitize_keeps_tab_and_outer_space :
  sanitize (PyStr [9; 97; 32]) = [9; 97; 32]
  /\ ~ Forall (fun c => isprintable (fun _ => true) c = true)
        (sanitize (PyStr [9; 97; 32]))
  /\ no_outer_whitespace (sanitize (PyStr [9; 97; 32])) = false
  /\ ~ (Forall (fun c => isprintable (fun _ => true) c = true)
          (sanitize (PyStr [9; 97; 32]))
        /\ no_outer_whitespace (sanitize (PyStr [9; 97; 32])) = true)
  /\ escape_latex (fun _ => true) [9; 97; 32] = u "a".
Proof.
  split; [reflexivity|]. split; [|split; [reflexivity|split]].
  - intros H. apply Forall_inv in H. vm_compute in H. discriminate.
  - intros [_ H]. vm_compute in H. discriminate.
  - reflexivity.
Qed.

(** C10: [escape_latex] is [strip()] after a character-wise map in which
    the backslash comes out as "\textbackslash\{\}", the braces of the
    first substitution being escaped by the later ones.  So every input
    with a backslash has "\textbackslash\{\}" in its output, no output
    contains "\textbackslash{}", and [escape_latex "\"] is
    "\textbackslash\{\}". *)
Theorem escape_latex_backslash_braces :
  forall (ip : char -> bool) (text : str),
    escape_latex ip text = strip (flat_map (escape_char ip) text)
    /\ escape_char ip 92 = u "\textbackslash\{\}"
    /\ (forall pre post,
          text = pre ++ u "\" ++ post ->
          escape_latex ip text
          = lstrip (flat_map (escape_char ip) pre)
              ++ u "\textbackslash\{\}"
              ++ rstrip (flat_map (escape_char ip) post))
    /\ (In 92 text ->
        contains (u "\textbackslash\{\}") (escape_latex ip text) = true)
    /\ contains (u "\textbackslash{}") (escape_latex ip text) = false
    /\ escape_latex ip (u "\") = u "\textbackslash\{\}".
Proof.
  intros ip text.
  assert (D : forall pre post,
             text = pre ++ u "\" ++ post ->
             escape_latex ip text
             = lstrip (flat_map (escape_char ip) pre)
                 ++ u "\textbackslash\{\}"
                 ++ rstrip (flat_map (escape_char ip) post)).
  { intros pre post ->.
    rewrite escape_latex_strip, !escape_latex_unstripped_app.
    change (escape_latex_unstripped ip (u "\")) with (u "\textbackslash\{\}").
    rewrite !escape_latex_unstripped_chars.
    eapply strip_around with (t' := u "\textbackslash\{\"); reflexivity. }
  split; [|split; [reflexivity|split; [exact D|split; [|split]]]].
  - rewrite escape_latex_strip, escape_latex_unstripped_chars. reflexivity.
  - intros H. apply in_split in H. destruct H as [pre [post E]].
    rewrite (D pre post E). apply contains_app.
  - rewrite escape_latex_strip.
    apply no_h_brace_textbackslash, no_h_brace_strip.
    apply escape_latex_unstripped_braces.
  - reflexivity.
Qed.

Lemma escape_latex_backslash_braces_witness :
  In 92 (u "C:\temp")
  /\ contains (u "\textbackslash\{\}")
       (escape_latex (fun _ => true) (u "C:\temp")) = true
  /\ escape_latex (fun _ => true) (u "C:\temp")
     = u "C:\textbackslash\{\}temp".
Proof.
  assert (H : In 92 (u "C:\temp")) by (vm_compute; tauto).
  split; [exact H|]. split; [|reflexivity].
  exact (proj1 (proj2 (proj2 (proj2
           (escape_latex_backslash_braces (fun _ => true) (u "C:\temp")))))
           H).
Defined.

(** ** [sorted] *)

Section SortedFacts.

Context {A K : Type}.
Variable ltb : K -> K -> bool.
Variable key : A -> K.
Variable reverse : bool.

Local Abbreviation before := (ordered_before ltb key reverse).

Hypothesis before_total :
  forall x y, stays_before ltb key reverse x y = false -> before y x.
Hypothesis before_trans :
  forall x y z, before x y -> before y z -> before x z.

Lemma insert_sorted_perm (x : A) (l : list A) :
  Permutation (x :: l) (insert_sorted ltb key reverse x l).
Proof.
  induction l as [|y l IH]; cbn [insert_sorted]; [reflexivity|].
  destruct (stays_before ltb key reverse x y); [reflexivity|].
  rewrite perm_swap. constructor. exact IH.
Qed.

Lemma sorted_perm (l : list A) : Permutation l (sorted ltb key reverse l).
Proof.
  induction l as [|x l IH]; [reflexivity|].
  cbn [sorted fold_right]. fold (sorted ltb key reverse l).
  rewrite <- insert_sorted_perm. constructor. exact IH.
Qed.

Lemma sorted_In (x : A) (l : list A) :
  In x (sorted ltb key reverse l) <-> In x l.
Proof.
  split; apply Permutation_in;
    [symmetry|]; apply sorted_perm.
Qed.

Lemma insert_sorted_ordered (x : A) (l : list A) :
  StronglySorted before l ->
  StronglySorted before (insert_sorted ltb key reverse x l).
Proof.
  induction 1 as [|y l Hs IH Hy]; cbn [insert_sorted].
  - repeat constructor.
  - destruct (stays_before ltb key reverse x y) eqn:E.
    + constructor; [constructor; assumption|].
      constructor; [exact E|].
      revert Hy; apply Forall_impl. intros z Hz.
      exact (before_trans _ _ _ E Hz).
    + constructor; [exact IH|].
      apply Forall_forall. intros z Hz.
      apply (Permutation_in _ (Permutation_sym (insert_sorted_perm x l)))
        in Hz.
      destruct Hz as [<-|Hz]; [apply before_total; exact E|].
      rewrite Forall_forall in Hy. auto.
Qed.

Lemma sorted_ordered (l : list A) :
  StronglySorted before (sorted ltb key reverse l).
Proof.
  induction l as [|x l IH]; [constructor|].
  cbn [sorted fold_right]. apply insert_sorted_ordered. exact IH.
Qed.

(** Elements that never have to pass one another keep their order. *)
Lemma insert_sorted_class (p : A -> bool) (x : A) (l : list A) :
  (forall a b, p a = true -> p b = true -> before a b) ->
  filter p (insert_sorted ltb key reverse x l)
  = if p x then x :: filter p l else filter p l.
Proof.
  intros Hp. induction l as [|y l IH]; cbn [insert_sorted filter].
  - destruct (p x); reflexivity.
  - destruct (stays_before ltb key reverse x y) eqn:E; cbn [filter].
    + destruct (p x); reflexivity.
    + rewrite IH. destruct (p y) eqn:Py, (p x) eqn:Px; try reflexivity.
      specialize (Hp x y Px Py). unfold ordered_before in Hp. congruence.
Qed.

Lemma sorted_stable (p : A -> bool) (l : list A) :
  (forall a b, p a = true -> p b = true -> before a b) ->
  filter p (sorted ltb key reverse l) = filter p l.
Proof.
  intros Hp. induction l as [|x l IH]; [reflexivity|].
  cbn [sorted fold_right filter]. fold (sorted ltb key reverse l).
  rewrite insert_sorted_class by exact Hp. rewrite IH. reflexivity.
Qed.

(** Removing elements commutes with inserting into an ordered list. *)
Lemma insert_sorted_filter (p : A -> bool) (x : A) (l : list A) :
  StronglySorted before l ->
  filter p (insert_sorted ltb key reverse x l)
  = if p x then insert_sorted ltb key reverse x (filter p l)
    else filter p l.
Proof.
  induction 1 as [|y l Hs IH Hy]; cbn [insert_sorted filter].
  - destruct (p x); reflexivity.
  - destruct (stays_before ltb key reverse x y) eqn:E; cbn [filter].
    + destruct (p x) eqn:Px, (p y) eqn:Py; cbn [insert_sorted];
        rewrite ?E; try reflexivity.
      destruct (filter p l) as [|z fl] eqn:F; [reflexivity|].
      cbn [insert_sorted].
      assert (Hz : In z l).
      { assert (In z (filter p l)) by (rewrite F; left; reflexivity).
        apply filter_In in H. tauto. }
      rewrite Forall_forall in Hy. specialize (Hy z Hz).
      pose proof (before_trans _ _ _ E Hy) as Hxz. unfold ordered_before in Hxz.
      rewrite Hxz. reflexivity.
    + rewrite IH. destruct (p x), (p y); cbn [insert_sorted];
        rewrite ?E; reflexivity.
Qed.

Lemma sorted_filter (p : A -> bool) (l : list A) :
  filter p (sorted ltb key reverse l) = sorted ltb key reverse (filter p l).
Proof.
  induction l as [|x l IH]; [reflexivity|].
  cbn [sorted fold_right filter]. fold (sorted ltb key reverse l).
  rewrite insert_sorted_filter by apply sorted_ordered.
  rewrite IH. destruct (p x); reflexivity.
Qed.

End SortedFacts.

Lemma sorted_repos_before_total (x y : Repo) :
  stays_before tuple_ltb sort_key true x y = false ->
  stays_before tuple_ltb sort_key true y x = true.
Proof.
  unfold stays_before, tuple_ltb.
  rewrite negb_false_iff, negb_true_iff, orb_true_iff, orb_false_iff,
    andb_true_iff, andb_false_iff, !Z.ltb_lt, !Z.ltb_ge, Z.eqb_eq, Z.eqb_neq.
  lia.
Qed.

Lemma sorted_repos_before_trans (x y z : Repo) :
  stays_before tuple_ltb sort_key true x y = true ->
  stays_before tuple_ltb sort_key true y z = true ->
  stays_before tuple_ltb sort_key true x z = true.
Proof.
  unfold stays_before, tuple_ltb.
  rewrite !negb_true_iff, !orb_false_iff, !andb_false_iff, !Z.ltb_ge,
    !Z.eqb_neq.
  lia.
Qed.

Lemma stays_before_ranks (x y : Repo) :
  stays_before tuple_ltb sort_key true x y = true <-> ranks_at_least x y.
Proof.
  unfold stays_before, tuple_ltb, ranks_at_least.
  rewrite negb_true_iff, orb_false_iff, andb_false_iff, !Z.ltb_ge, Z.eqb_neq.
  lia.
Qed.

Lemma sorted_repos_filter (p : Repo -> bool) (repos : list Repo) :
  filter p (sorted_repos repos) = sorted_repos (filter p repos).
Proof.
  apply sorted_filter.
  - exact sorted_repos_before_total.
  - exact sorted_repos_before_trans.
Qed.

Lemma sorted_repos_In (r : Repo) (repos : list Repo) :
  In r (sorted_repos repos) <-> In r repos.
Proof. apply sorted_In. Qed.

(** ** The loop of [fetch_github_data] *)

Lemma bind_Ok {A B : Type} (r : result A) (k : A -> result B) (b : B) :
  bind r k = Ok b -> exists a, r = Ok a /\ k a = Ok b.
Proof. destruct r as [a|c]; cbn [bind]; [eauto | discriminate]. Qed.

Lemma process_repo_fork (net : Network) (st : LoopState) (repo : Repo) :
  not_fork repo = false -> process_repo net st repo = Ok st.
Proof.
  intros H. destruct st as [[p e] a]. unfold process_repo. rewrite H.
  reflexivity.
Qed.

(** One iteration on a repository that is not a fork. *)
Lemma process_repo_not_fork (net : Network) (p : list ProjectData)
    (e : list ExpData) (a : list str) (repo : Repo) :
  not_fork repo = true ->
  process_repo net (p, e, a) repo
  = if fetchable net repo
    then Ok (if (List.length p <? 3)%nat && significant net repo
             then p ++ [project_of net repo] else p,
             if significant net repo
             then e ++ [experience_of net repo] else e,
             set_update a (repo_languages net repo))
    else HTTPException 500.
Proof.
  intros H.
  unfold process_repo, fetchable, significant, project_of, experience_of,
    description_of, repo_languages, repo_commit_count, repo_stars.
  rewrite H.
  destruct (get_languages net (repo_languages_url repo)) as [lr|];
    cbn [requests_get bind]; [|reflexivity].
  destruct (get_commits net (hd [] (split_char 123 (repo_commits_url repo))))
    as [cr|]; cbn [requests_get bind]; [|reflexivity].
  destruct (repo_stargazers_count repo) as [stars|];
    cbn [dict_item bind dict_get]; [|reflexivity].
  destruct (status_code lr =? 200)%Z, (status_code cr =? 200)%Z; reflexivity.
Qed.

Lemma process_repos_filter (net : Network) (repos : list Repo) :
  forall st,
    process_repos net st (filter not_fork repos) = process_repos net st repos.
Proof.
  induction repos as [|r repos IH]; intros st; [reflexivity|].
  cbn [filter process_repos]. destruct (not_fork r) eqn:E.
  - cbn [process_repos]. destruct (process_repo net st r); cbn [bind];
      [apply IH | reflexivity].
  - rewrite process_repo_fork by exact E. cbn [bind]. apply IH.
Qed.

Lemma firstn_app_full {A : Type} (n : nat) (l l' : list A) :
  (n <= List.length l)%nat -> firstn n (l ++ l') = firstn n l.
Proof.
  intros H. rewrite firstn_app.
  replace (n - List.length l)%nat with 0%nat by lia.
  cbn [firstn]. apply app_nil_r.
Qed.

(** The loop in closed form: the projects are the first three significant
    repositories that are not forks, the experience entries all of them. *)
Lemma process_repos_closed_form (net : Network) (repos : list Repo) :
  forall p e a p' e' a',
    process_repos net (p, e, a) repos = Ok (p', e', a') ->
    let chosen := filter (significant net) (filter not_fork repos) in
    (firstn 3 p' = firstn 3 (p ++ List.map (project_of net) chosen)
     /\ ((List.length p <= 3)%nat -> (List.length p' <= 3)%nat))
    /\ e' = e ++ List.map (experience_of net) chosen
    /\ a' = fold_left (fun acc r => set_update acc (repo_languages net r))
              (filter not_fork repos) a.
Proof.
  induction repos as [|r repos IH]; intros p e a p' e' a' H.
  - cbn in H. inversion H; subst. cbn. rewrite !app_nil_r. auto.
  - cbn [process_repos] in H. apply bind_Ok in H.
    destruct H as [[[p1 e1] a1] [H1 H2]].
    cbn [filter]. destruct (not_fork r) eqn:E.
    + rewrite process_repo_not_fork in H1 by exact E.
      destruct (fetchable net r); [|discriminate].
      inversion H1; subst p1 e1 a1; clear H1.
      specialize (IH _ _ _ _ _ _ H2). cbn zeta in IH.
      destruct IH as [[IHp IHl] [IHe IHa]].
      cbn [filter fold_left]. destruct (significant net r) eqn:S.
      * rewrite andb_true_r in IHp, IHl. cbn [List.map].
        repeat split.
        -- rewrite IHp. destruct (List.length p <? 3)%nat eqn:L.
           ++ rewrite <- app_assoc. reflexivity.
           ++ apply Nat.ltb_ge in L.
              rewrite !firstn_app_full by exact L. reflexivity.
        -- intros Hp. apply IHl.
           destruct (List.length p <? 3)%nat eqn:L; [|exact Hp].
           apply Nat.ltb_lt in L. rewrite length_app. cbn. lia.
        -- rewrite IHe, <- app_assoc. reflexivity.
        -- exact IHa.
      * rewrite andb_false_r in IHp, IHl. auto.
    + rewrite process_repo_fork in H1 by exact E.
      inversion H1; subst p1 e1 a1. exact (IH _ _ _ _ _ _ H2).
Qed.


Lemma set_add_In (s x : str) (a : list str) :
  In s (set_add x a) <-> In s a \/ s = x.
Proof.
  unfold set_add. destruct (existsb (str_eqb x) a) eqn:E.
  - split; [auto|]. intros [H| ->]; [exact H|].
    apply existsb_exists in E. destruct E as [y [Hy Hxy]].
    apply str_eqb_eq in Hxy. subst y. exact Hy.
  - rewrite in_app_iff. cbn. intuition auto.
Qed.

Lemma set_update_In (s : str) (xs a : list str) :
  In s (set_update a xs) <-> In s a \/ In s xs.
Proof.
  unfold set_update. revert a.
  induction xs as [|x xs IH]; intros a; cbn [fold_left].
  - cbn. tauto.
  - rewrite IH, set_add_In. cbn. intuition auto.
Qed.

Lemma all_languages_In (net : Network) (s : str) (repos : list Repo) :
  forall a,
    In s (fold_left (fun acc r => set_update acc (repo_languages net r))
            repos a)
    <-> In s a \/ exists r, In r repos /\ In s (repo_languages net r).
Proof.
  induction repos as [|r repos IH]; intros a; cbn [fold_left].
  - split; [auto|]. intros [H|[r [[] _]]]. exact H.
  - rewrite IH, set_update_In. split.
    + intros [[H|H]|[r' [H1 H2]]]; [auto| |].
      * right. exists r. split; [left; reflexivity | exact H].
      * right. exists r'. split; [right; exact H1 | exact H2].
    + intros [H|[r' [[<-|H1] H2]]]; [auto|auto|].
      right. exists r'. auto.
Qed.

(** ** [process_github_data] and [fetch_github_data] *)

Lemma process_github_data_inv (net : Network) (github_url username : str)
    (user_data : UserData) (repos : list Repo) (d : FinalData) :
  process_github_data net github_url username user_data repos = Ok d ->
  exists p e a,
    process_repos net ([], [], []) (sorted_repos repos) = Ok (p, e, a)
    /\ fd_projects d = p
    /\ fd_experience d = e
    /\ fd_skills d = sorted str_ltb (fun s => s) false a
    /\ fd_education d
       = if truthy (dict_get (user_bio user_data) PyNone)
         then [education_data] else [].
Proof.
  unfold process_github_data. intros H. apply bind_Ok in H.
  destruct H as [[[p e] a] [H1 H2]].
  exists p, e, a. inversion H2; subst d; cbn. auto.
Qed.

Lemma fetch_github_data_inv (net : Network) (github_url : str)
    (d : FinalData) :
  fetch_github_data net github_url = Ok d ->
  exists user_data repos,
    process_github_data net github_url (last (split_char 47 github_url) [])
      user_data repos = Ok d.
Proof.
  unfold fetch_github_data. intros H.
  apply bind_Ok in H. destruct H as [ur [_ H]].
  destruct (negb (status_code ur =? 200)%Z); [discriminate|].
  apply bind_Ok in H. destruct H as [rr [_ H]].
  destruct (negb (status_code rr =? 200)%Z); [discriminate|].
  eauto.
Qed.

Lemma process_github_data_projects (net : Network) (github_url username : str)
    (user_data : UserData) (repos : list Repo) (d : FinalData) :
  process_github_data net github_url username user_data repos = Ok d ->
  fd_projects d = firstn 3 (List.map (project_of net) (chosen_repos net repos))
  /\ fd_experience d = List.map (experience_of net) (chosen_repos net repos)
  /\ (forall s, In s (fd_skills d) <->
                exists r, In r (filter not_fork repos)
                          /\ In s (repo_languages net r)).
Proof.
  intros H. apply process_github_data_inv in H.
  destruct H as [p [e [a [H [Hp [He [Hs _]]]]]]].
  apply process_repos_closed_form in H. cbn zeta in H.
  destruct H as [[H1 H2] [H3 H4]]. cbn [app] in H1, H3.
  fold (chosen_repos net repos) in H1, H3.
  repeat split.
  - rewrite Hp, <- H1. symmetry. apply firstn_all2. apply H2. cbn. lia.
  - rewrite He. exact H3.
  - rewrite Hs, sorted_In, H4, all_languages_In.
    intros [[]|[r [Hr Hl]]]. exists r. split; [|exact Hl].
    rewrite sorted_repos_filter, sorted_repos_In in Hr. exact Hr.
  - rewrite Hs, sorted_In, H4, all_languages_In.
    intros [r [Hr Hl]]. right. exists r. split; [|exact Hl].
    rewrite sorted_repos_filter, sorted_repos_In. exact Hr.
Qed.

(** C4: the loop of [fetch_github_data] visits the repositories in
    descending order of [(stargazers_count, forks_count)], compared as
    pairs; the visiting order is a rearrangement of the input in which
    repositories of equal keys keep their input order; the experience
    entries follow that order; and A(5,1), B(5,3), C(2,9) are visited as
    B, A, C. *)
Theorem sorted_repos_descending_stable :
  forall repos : list Repo,
    Permutation repos (sorted_repos repos)
    /\ StronglySorted ranks_at_least (sorted_repos repos)
    /\ (forall k, filter (has_sort_key k) (sorted_repos repos)
                  = filter (has_sort_key k) repos)
    /\ (forall net github_url username user_data d,
          process_github_data net github_url username user_data repos = Ok d ->
          fd_experience d
          = List.map (experience_of net)
              (filter (significant net)
                 (filter not_fork (sorted_repos repos))))
    /\ sorted_repos
         [repo_with (u "A") 5 1; repo_with (u "B") 5 3; repo_with (u "C") 2 9]
       = [repo_with (u "B") 5 3; repo_with (u "A") 5 1; repo_with (u "C") 2 9].
Proof.
  intros repos. split; [|split; [|split; [|split]]].
  - apply sorted_perm.
  - pose proof (sorted_ordered tuple_ltb sort_key true
                  sorted_repos_before_total sorted_repos_before_trans repos)
      as H.
    unfold sorted_repos. revert H.
    generalize (sorted tuple_ltb sort_key true repos).
    intros l H. induction H as [|x l Hs IH Hx]; constructor; [exact IH|].
    revert Hx; apply Forall_impl. intros y. apply stays_before_ranks.
  - intros k. apply sorted_stable.
    intros a b Ha Hb. unfold has_sort_key in Ha, Hb.
    apply andb_true_iff in Ha, Hb.
    rewrite !Z.eqb_eq in Ha, Hb.
    apply stays_before_ranks. unfold ranks_at_least. lia.
  - intros net github_url username user_data d H.
    apply process_github_data_projects in H. tauto.
  - reflexivity.
Qed.

Lemma sorted_repos_descending_stable_witness :
  exists d,
    process_github_data (static_net octocat three_ranked python_only 12)
      octocat_url (u "octocat") octocat three_ranked = Ok d
    /\ List.map exp_company (fd_experience d) = [u "B"; u "A"; u "C"]
    /\ fd_experience d
       = List.map (experience_of (static_net octocat three_ranked python_only 12))
           (filter (significant (static_net octocat three_ranked python_only 12))
              (filter not_fork (sorted_repos three_ranked))).
Proof.
  eexists. split; [reflexivity|]. split; [reflexivity|].
  exact (proj1 (proj2 (proj2 (proj2
           (sorted_repos_descending_stable three_ranked))))
           (static_net octocat three_ranked python_only 12)
           octocat_url (u "octocat") octocat _ eq_refl).
Defined.


(** C1 (as amended): the extraction keeps at most three projects, namely
    the first three significant repositories that are not forks, and one
    experience entry for every such repository; the limits of two projects
    and three experience entries are those of the items that
    [generate_latex_resume] renders. *)
Theorem extraction_and_rendering_limits :
  forall (net : Network) (github_url username : str) (user_data : UserData)
         (repos : list Repo) (d : FinalData),
    process_github_data net github_url username user_data repos = Ok d ->
    (List.length (fd_projects d) <= 3)%nat
    /\ fd_projects d
       = firstn 3 (List.map (project_of net) (chosen_repos net repos))
    /\ fd_experience d = List.map (experience_of net) (chosen_repos net repos)
    /\ (List.length (project_items d) <= 2)%nat
    /\ (List.length (experience_items d) <= 3)%nat.
Proof.
  intros net github_url username user_data repos d H.
  apply process_github_data_projects in H. destruct H as [Hp [He _]].
  repeat split; try assumption.
  - rewrite Hp. apply firstn_le_length.
  - unfold project_items. rewrite length_map. apply firstn_le_length.
  - unfold experience_items. rewrite length_map. apply firstn_le_length.
Qed.

Lemma extraction_and_rendering_limits_witness :
  exists d,
    process_github_data (static_net octocat four_starred python_only 12)
      octocat_url (u "octocat") octocat four_starred = Ok d
    /\ (List.length (fd_projects d) <= 3)%nat
    /\ (List.length (project_items d) <= 2)%nat
    /\ (List.length (experience_items d) <= 3)%nat.
Proof.
  eexists. split; [reflexivity|].
  pose proof (extraction_and_rendering_limits
                (static_net octocat four_starred python_only 12)
                octocat_url (u "octocat") octocat four_starred _ eq_refl)
    as H.
  tauto.
Defined.

(** C1, counterexample: with four starred repositories the extracted facts
    hold three projects and four experience entries. *)
Lemma extraction_keeps_three_projects_four_experiences :
  exists d,
    fetch_github_data (static_net octocat four_starred python_only 12)
      octocat_url = Ok d
    /\ List.length (fd_projects d) = 3%nat
    /\ List.length (fd_experience d) = 4%nat
    /\ ~ ((List.length (fd_projects d) <= 2)%nat
          /\ (List.length (fd_experience d) <= 3)%nat).
Proof.
  eexists. split; [reflexivity|].
  split; [reflexivity|]. split; [reflexivity|].
  intros [H _]. vm_compute in H. lia.
Qed.

Lemma In_firstn_In {A : Type} (n : nat) (l : list A) (x : A) :
  In x (firstn n l) -> In x l.
Proof.
  intros H. rewrite <- (firstn_skipn n l). apply in_or_app. left; exact H.
Qed.

Lemma chosen_repos_In (net : Network) (repos : list Repo) (r : Repo) :
  In r (chosen_repos net repos) ->
  In r repos /\ not_fork r = true /\ significant net r = true.
Proof.
  unfold chosen_repos. rewrite !filter_In, sorted_repos_In. tauto.
Qed.

(** C5: the extraction gives the same result with the forks taken out of
    the repository list, and when it succeeds every project and every
    experience entry is built from a repository that is not a fork, and
    every skill is a language of such a repository. *)
Theorem forks_never_contribute :
  forall (net : Network) (github_url username : str) (user_data : UserData)
         (repos : list Repo),
    process_github_data net github_url username user_data repos
    = process_github_data net github_url username user_data
        (filter not_fork repos)
    /\ forall d,
         process_github_data net github_url username user_data repos = Ok d ->
         (forall p, In p (fd_projects d) ->
                    exists r, In r repos /\ not_fork r = true
                              /\ p = project_of net r)
         /\ (forall e, In e (fd_experience d) ->
                       exists r, In r repos /\ not_fork r = true
                                 /\ e = experience_of net r)
         /\ (forall s, In s (fd_skills d) ->
                       exists r, In r repos /\ not_fork r = true
                                 /\ In s (repo_languages net r)).
Proof.
  intros net github_url username user_data repos. split.
  - unfold process_github_data.
    rewrite <- sorted_repos_filter, process_repos_filter. reflexivity.
  - intros d H. apply process_github_data_projects in H.
    destruct H as [Hp [He Hs]]. repeat split.
    + intros p Hin. rewrite Hp in Hin. apply In_firstn_In in Hin.
      apply in_map_iff in Hin. destruct Hin as [r [<- Hr]].
      apply chosen_repos_In in Hr. exists r. tauto.
    + intros e Hin. rewrite He in Hin.
      apply in_map_iff in Hin. destruct Hin as [r [<- Hr]].
      apply chosen_repos_In in Hr. exists r. tauto.
    + intros s Hin. apply Hs in Hin. destruct Hin as [r [Hr Hl]].
      apply filter_In in Hr. exists r. tauto.
Qed.

Lemma forks_never_contribute_witness :
  exists d,
    process_github_data (static_net octocat with_fork_list rust_only 3)
      octocat_url (u "octocat") octocat with_fork_list = Ok d
    /\ List.map proj_name (fd_projects d) = [u "own"]
    /\ forall p, In p (fd_projects d) ->
                 exists r, In r with_fork_list /\ not_fork r = true
                           /\ p = project_of
                                    (static_net octocat with_fork_list
                                       rust_only 3) r.
Proof.
  eexists. split; [reflexivity|]. split; [reflexivity|].
  exact (proj1 (proj2 (forks_never_contribute
                         (static_net octocat with_fork_list rust_only 3)
                         octocat_url (u "octocat") octocat with_fork_list)
                  _ eq_refl)).
Defined.

(** C6: the extracted education list is non-empty exactly when the bio of
    the profile is a non-empty string, and it then holds the one fixed
    entry, whose date is "Present". *)
Theorem education_iff_bio :
  forall (net : Network) (github_url username : str) (user_data : UserData)
         (repos : list Repo) (d : FinalData),
    process_github_data net github_url username user_data repos = Ok d ->
    (fd_education d <> []
     <-> exists c b, user_bio user_data = Some (PyStr (c :: b)))
    /\ (fd_education d <> [] -> fd_education d = [education_data])
    /\ edu_school education_data = u "Computer Science Student"
    /\ edu_degree education_data = u "Bachelor of Science in Computer Science"
    /\ edu_date education_data = u "Present".
Proof.
  intros net github_url username user_data repos d H.
  apply process_github_data_inv in H.
  destruct H as [p [e [a [_ [_ [_ [_ He]]]]]]]. rewrite He.
  split; [|split; [|repeat split]].
  - destruct (user_bio user_data) as [[|[|c b]]|]; cbn; split;
      try congruence; try (intros [c' [b' E]]; discriminate).
    intros _. eauto.
  - destruct (truthy (dict_get (user_bio user_data) PyNone)); congruence.
Qed.

Lemma education_iff_bio_witness :
  exists d,
    process_github_data (static_net octocat four_starred python_only 12)
      octocat_url (u "octocat") octocat four_starred = Ok d
    /\ (fd_education d <> []
        <-> exists c b, user_bio octocat = Some (PyStr (c :: b)))
    /\ fd_education d = [education_data].
Proof.
  eexists. split; [reflexivity|].
  split; [|reflexivity].
  exact (proj1 (education_iff_bio
                  (static_net octocat four_starred python_only 12)
                  octocat_url (u "octocat") octocat four_starred _ eq_refl)).
Defined.

(** Where the description key is absent the fallback is used, and a
    description that is a string is used as it is. *)
Lemma compose_description_prefix (repo : Repo) (languages : list str)
    (commit_count : nat) (stars : Z) :
  exists rest,
    compose_description repo languages commit_count stars
    = match repo_description repo with
      | None => u "A project"
      | Some PyNone => u "None"
      | Some (PyStr s) => s
      end ++ u ". Technologies: " ++ rest.
Proof.
  unfold compose_description. eexists.
  destruct (repo_description repo) as [[|s]|]; cbn [dict_get format_val];
    rewrite <- ?app_assoc; reflexivity.
Qed.

(** C7: [repo.get('description', 'A project')] falls back only when the
    key is absent.  With the [null] that the API sends for a repository
    without description the composed text starts with "None", and with an
    empty description it starts with the full stop; neither starts with
    "A project". *)
Theorem description_fallback_misses_null_and_empty :
  (exists d,
      fetch_github_data (static_net octocat [undescribed] python_only 15)
        octocat_url = Ok d
      /\ List.map proj_description (fd_projects d)
         = [u "None. Technologies: Python. Made 15 commits. Stars: 10, Forks: 0"]
      /\ List.map exp_description (fd_experience d)
         = [u "None. Technologies: Python. Made 15 commits. Stars: 10, Forks: 0"])
  /\ compose_description (with_description (Some (PyStr [])) undescribed)
       [u "Python"] 15 10
     = u ". Technologies: Python. Made 15 commits. Stars: 10, Forks: 0"
  /\ compose_description (with_description None undescribed)
       [u "Python"] 15 10
     = u "A project. Technologies: Python. Made 15 commits. Stars: 10, Forks: 0".
Proof.
  split; [|split; reflexivity].
  eexists. split; [reflexivity|]. split; reflexivity.
Qed.

(** ** [generate_latex_resume] *)

Lemma sanitize_falsy (v : pyval) : truthy v = false -> sanitize v = [].
Proof. intros H. unfold sanitize. rewrite H. reflexivity. Qed.

(** The contact fragment, with the two labels evaluated. *)
Lemma contact_section_shape (d : FinalData) :
  contact_section d
  = (u "\begin{center}" ++ nl ++ u "\small " ++ sanitize (fd_email d)
       ++ u " $|$ ")
      ++ (u "\href{" ++ sanitize (PyStr (fd_profile_url d)) ++ u "}{GitHub}")
      ++ u " $|$ "
      ++ (u "\href{" ++ sanitize (fd_blog d) ++ u "}{Portfolio}")
      ++ nl ++ u "\end{center}".
Proof.
  unfold contact_section.
  change (sanitize (PyStr (u "GitHub"))) with (u "GitHub").
  change (sanitize (PyStr (u "Portfolio"))) with (u "Portfolio").
  rewrite <- !app_assoc. reflexivity.
Qed.

(** C8 (as amended): the contact fragment always holds both links, the
    profile link labelled "GitHub" and the blog link labelled "Portfolio",
    each around the sanitised URL; an empty URL gives a link with an empty
    target, it does not remove the link. *)
Theorem contact_section_always_has_both_links :
  forall d : FinalData,
    contains
      (u "\href{" ++ sanitize (PyStr (fd_profile_url d)) ++ u "}{GitHub}")
      (contact_section d) = true
    /\ contains (u "\href{" ++ sanitize (fd_blog d) ++ u "}{Portfolio}")
         (contact_section d) = true
    /\ (fd_profile_url d = [] ->
        contains (u "\href{}{GitHub}") (contact_section d) = true)
    /\ (truthy (fd_blog d) = false ->
        contains (u "\href{}{Portfolio}") (contact_section d) = true).
Proof.
  intros d.
  assert (H1 : contains
                 (u "\href{" ++ sanitize (PyStr (fd_profile_url d))
                    ++ u "}{GitHub}")
                 (contact_section d) = true).
  { rewrite contact_section_shape. apply contains_app. }
  assert (H2 : contains
                 (u "\href{" ++ sanitize (fd_blog d) ++ u "}{Portfolio}")
                 (contact_section d) = true).
  { rewrite contact_section_shape. apply contains_after3. }
  repeat split; try assumption.
  - intros E. rewrite E in H1. exact H1.
  - intros E. rewrite (sanitize_falsy _ E) in H2. exact H2.
Qed.

Lemma contact_section_always_has_both_links_witness :
  exists d,
    fetch_github_data (static_net octocat four_starred python_only 12) []
    = Ok d
    /\ fd_profile_url d = []
    /\ truthy (fd_blog d) = false
    /\ contains (u "\href{}{GitHub}") (contact_section d) = true
    /\ contains (u "\href{}{Portfolio}") (contact_section d) = true.
Proof.
  eexists. split; [reflexivity|].
  split; [reflexivity|]. split; [reflexivity|].
  split.
  - apply (proj1 (proj2 (proj2
             (contact_section_always_has_both_links _)))). reflexivity.
  - apply (proj2 (proj2 (proj2
             (contact_section_always_has_both_links _)))). reflexivity.
Defined.

(** C8, counterexample: the profile has an empty blog, and the contact
    fragment still carries the "Portfolio" link. *)
Lemma contact_section_keeps_link_of_empty_blog :
  exists d,
    fetch_github_data (static_net octocat four_starred python_only 12)
      octocat_url = Ok d
    /\ fd_blog d = PyStr []
    /\ contains (u "\href{}{Portfolio}") (contact_section d) = true
    /\ contact_section d
       = u "\begin{center}" ++ nl
           ++ u "\small  $|$ \href{https://github.com/octocat}{GitHub} $|$ \href{}{Portfolio}"
           ++ nl ++ u "\end{center}".
Proof.
  eexists. split; [reflexivity|].
  split; [reflexivity|]. split; [reflexivity|]. reflexivity.
Qed.

(** On a template made of the six blocks, one per line, the rendering is
    the six fragments, one per line. *)
Example generate_latex_resume_blocks :
  exists d,
    fetch_github_data (static_net octocat four_starred python_only 12)
      octocat_url = Ok d
    /\ generate_latex_resume (join nl (List.map fst (replacements d))) d
       = join nl (List.map snd (replacements d)).
Proof. eexists. split; [reflexivity|]. vm_compute. reflexivity. Qed.

Lemma render_app (template : str) (before after : list (str * str)) :
  render template (before ++ after) = render (render template before) after.
Proof. unfold render, replace_each. apply fold_left_app. Qed.

Lemma render_absent (table : list (str * str)) :
  forall template,
    (forall kv, In kv table -> contains (fst kv) template = false) ->
    render template table = template.
Proof.
  unfold render, replace_each.
  induction table as [|kv table IH]; intros template H; [reflexivity|].
  cbn [fold_left]. rewrite replace_absent by (apply H; left; reflexivity).
  apply IH. intros kv' Hkv'. apply H. right; exact Hkv'.
Qed.

Lemma render_independent_single (k0 : char) (k v text : str) :
  forall skip,
    render_independent_from [(k0 :: k, v)] skip text
    = replace_from (k0 :: k) v skip text.
Proof.
  induction text as [|c rest IH]; intros skip; [reflexivity|].
  cbn [render_independent_from replace_from first_match fst snd].
  destruct skip; [|apply IH].
  destruct (startswith (k0 :: k) (c :: rest)); cbn [fst snd]; rewrite IH;
    reflexivity.
Qed.

(** The renderer is a fold over the table: the replacements are applied
    one after the other in table order, each to the text left by the
    previous ones; a pair whose block is absent leaves the text as it is;
    and with a single pair the result is the independent substitution
    into the original template. *)
Lemma render_applies_replacements_in_sequence :
  forall (template : str) (d : FinalData),
    generate_latex_resume template d = render template (replacements d)
    /\ (forall before k v after,
          render template (before ++ (k, v) :: after)
          = render (replace k v (render template before)) after)
    /\ (forall table,
          (forall kv, In kv table -> contains (fst kv) template = false) ->
          render template table = template)
    /\ (forall k v,
          k <> [] ->
          render template [(k, v)] = render_independent template [(k, v)]).
Proof.
  intros template d. split; [reflexivity|]. split; [|split].
  - intros before k v after. rewrite render_app. reflexivity.
  - intros table. apply render_absent.
  - intros [|k0 k] v Hk; [congruence|].
    unfold render_independent. rewrite render_independent_single.
    reflexivity.
Qed.

(** A table whose second block occurs in the fragment of the first is not
    separate, and on it the fold does rewrite substituted output: the
    result differs from the independent substitution and changes with the
    order of the pairs.  [generate_latex_resume] registers no such table
    (see [replacements_separate]). *)
Lemma render_rewrites_substituted_output :
  render (u "a") [(u "a", u "b"); (u "b", u "c")] = u "c"
  /\ render (u "a") [(u "b", u "c"); (u "a", u "b")] = u "b"
  /\ render_independent (u "a") [(u "a", u "b"); (u "b", u "c")] = u "b"
  /\ render (u "a") [(u "a", u "b"); (u "b", u "c")]
     <> render_independent (u "a") [(u "a", u "b"); (u "b", u "c")]
  /\ render (u "a") [(u "a", u "b"); (u "b", u "c")]
     <> render (u "a") [(u "b", u "c"); (u "a", u "b")].
Proof.
  repeat split; try reflexivity; vm_compute; discriminate.
Qed.

(** * Further properties *)

(** ** Failure and success of [fetch_github_data] *)







(** ** The skills *)

Lemma str_ltb_cons (x y : char) (a b : str) :
  str_ltb (x :: a) (y :: b) = (x <? y) || ((x =? y) && str_ltb a b).
Proof. reflexivity. Qed.

Lemma str_ltb_asym (a : str) :
  forall b, str_ltb a b = true -> str_ltb b a = false.
Proof.
  induction a as [|x a IH]; intros [|y b]; try reflexivity; try discriminate.
  rewrite !str_ltb_cons.
  destruct (N.ltb_spec x y), (N.ltb_spec y x), (N.eqb_spec x y),
    (N.eqb_spec y x); cbn; try lia; try discriminate; auto.
Qed.

Lemma str_ltb_total (a : str) :
  forall b, str_ltb a b = false -> str_ltb b a = false -> a = b.
Proof.
  induction a as [|x a IH]; intros [|y b]; try reflexivity; try discriminate.
  rewrite !str_ltb_cons.
  destruct (N.ltb_spec x y), (N.ltb_spec y x), (N.eqb_spec x y),
    (N.eqb_spec y x); cbn; try lia; try discriminate.
  intros H1 H2. subst y. f_equal. auto.
Qed.

Lemma str_ltb_false_trans (x : str) :
  forall y z,
    str_ltb y x = false -> str_ltb z y = false -> str_ltb z x = false.
Proof.
  induction x as [|a x IH]; intros y z.
  - destruct z; reflexivity.
  - destruct y as [|b y]; [discriminate|].
    destruct z as [|c z]; [discriminate|].
    rewrite !str_ltb_cons.
    destruct (N.ltb_spec b a), (N.ltb_spec c b), (N.ltb_spec c a),
      (N.eqb_spec b a), (N.eqb_spec c b), (N.eqb_spec c a);
      cbn; try lia; try discriminate; auto.
    apply IH.
Qed.

Lemma set_add_NoDup (x : str) (a : list str) :
  NoDup a -> NoDup (set_add x a).
Proof.
  intros H. unfold set_add. destruct (existsb (str_eqb x) a) eqn:E; [exact H|].
  apply (Permutation_NoDup (Permutation_cons_append a x)).
  constructor; [|exact H]. intros Hin.
  assert (existsb (str_eqb x) a = true)
    by (apply existsb_exists; exists x; split; [exact Hin|apply str_eqb_refl]).
  congruence.
Qed.

Lemma set_update_NoDup (xs a : list str) :
  NoDup a -> NoDup (set_update a xs).
Proof.
  unfold set_update. revert a.
  induction xs as [|x xs IH]; intros a H; [exact H|].
  cbn [fold_left]. apply IH, set_add_NoDup, H.
Qed.

Lemma all_languages_NoDup (net : Network) (repos : list Repo) :
  forall a,
    NoDup a ->
    NoDup (fold_left (fun acc r => set_update acc (repo_languages net r))
             repos a).
Proof.
  induction repos as [|r repos IH]; intros a H; [exact H|].
  cbn [fold_left]. apply IH, set_update_NoDup, H.
Qed.

Lemma strictly_sorted (l : list str) :
  StronglySorted (ordered_before str_ltb (fun s => s) false) l ->
  NoDup l ->
  StronglySorted (fun a b => str_ltb a b = true) l.
Proof.
  induction 1 as [|x l Hs IH Hx]; intros Hn; [constructor|].
  inversion Hn as [|? ? Hnotin Hn']; subst.
  constructor; [exact (IH Hn')|].
  apply Forall_forall. intros y Hy.
  rewrite Forall_forall in Hx. specialize (Hx y Hy).
  unfold ordered_before, stays_before in Hx. apply negb_true_iff in Hx.
  destruct (str_ltb x y) eqn:E; [reflexivity|].
  exfalso. apply Hnotin. rewrite (str_ltb_total _ _ E Hx). exact Hy.
Qed.

(** X2: the extracted skills are in strictly ascending order of their code
    points, hence without duplicates. *)
Theorem skills_sorted_without_duplicates :
  forall (net : Network) (github_url username : str) (user_data : UserData)
         (repos : list Repo) (d : FinalData),
    process_github_data net github_url username user_data repos = Ok d ->
    StronglySorted (fun a b => str_ltb a b = true) (fd_skills d)
    /\ NoDup (fd_skills d).
Proof.
  intros net github_url username user_data repos d H.
  apply process_github_data_inv in H.
  destruct H as [p [e [a [H [_ [_ [Hs _]]]]]]].
  apply process_repos_closed_form in H. cbn zeta in H.
  destruct H as [_ [_ Ha]].
  assert (Hn : NoDup (fd_skills d)).
  { rewrite Hs.
    apply (Permutation_NoDup (sorted_perm str_ltb (fun s => s) false a)).
    rewrite Ha. apply all_languages_NoDup. constructor. }
  split; [|exact Hn].
  apply strictly_sorted; [|exact Hn]. rewrite Hs.
  apply sorted_ordered.
  - intros x y E. unfold ordered_before, stays_before in *.
    apply negb_false_iff in E. apply negb_true_iff.
    exact (str_ltb_asym _ _ E).
  - intros x y z. unfold ordered_before, stays_before.
    rewrite !negb_true_iff. intros H1 H2.
    exact (str_ltb_false_trans _ _ _ H1 H2).
Qed.

Lemma skills_sorted_without_duplicates_witness :
  exists d,
    process_github_data
      (static_net octocat four_starred
         [(u "Python", 1%Z); (u "C++", 2%Z); (u "HTML", 3%Z)] 12)
      octocat_url (u "octocat") octocat four_starred = Ok d
    /\ fd_skills d = [u "C++"; u "HTML"; u "Python"]
    /\ StronglySorted (fun a b => str_ltb a b = true) (fd_skills d).
Proof.
  eexists. split; [reflexivity|]. split; [reflexivity|].
  exact (proj1 (skills_sorted_without_duplicates
                  (static_net octocat four_starred
                     [(u "Python", 1%Z); (u "C++", 2%Z); (u "HTML", 3%Z)] 12)
                  octocat_url (u "octocat") octocat four_starred _ eq_refl)).
Defined.

(** ** Which repositories count *)

Lemma chosen_repos_length (net : Network) (repos : list Repo) :
  List.length (chosen_repos net repos)
  = List.length (filter (significant net) (filter not_fork repos)).
Proof.
  unfold chosen_repos. rewrite !sorted_repos_filter.
  symmetry. apply Permutation_length. apply sorted_perm.
Qed.

(** X3: every language of every repository that is not a fork is a skill,
    whether or not the repository is significant, and nothing else is; the
    experience list has exactly one entry for each significant repository
    that is not a fork. *)
Theorem skills_and_experience_cover :
  forall (net : Network) (github_url username : str) (user_data : UserData)
         (repos : list Repo) (d : FinalData),
    process_github_data net github_url username user_data repos = Ok d ->
    (forall s, In s (fd_skills d)
               <-> exists r, In r repos /\ not_fork r = true
                             /\ In s (repo_languages net r))
    /\ List.length (fd_experience d)
       = List.length (filter (significant net) (filter not_fork repos))
    /\ (forall r, In r repos -> not_fork r = true ->
                  significant net r = true ->
                  In (experience_of net r) (fd_experience d)).
Proof.
  intros net github_url username user_data repos d H.
  apply process_github_data_projects in H. destruct H as [_ [He Hs]].
  split; [|split].
  - intros s. rewrite Hs. split; intros [r [Hr Hl]]; exists r.
    + apply filter_In in Hr. tauto.
    + split; [apply filter_In|]; tauto.
  - rewrite He, length_map. apply chosen_repos_length.
  - intros r Hr Hf Hsig. rewrite He. apply in_map.
    unfold chosen_repos. rewrite !filter_In, sorted_repos_In. auto.
Qed.

Lemma skills_and_experience_cover_witness :
  exists d,
    process_github_data (static_net octocat with_fork_list rust_only 3)
      octocat_url (u "octocat") octocat with_fork_list = Ok d
    /\ List.length (fd_experience d) = 1%nat
    /\ In (experience_of (static_net octocat with_fork_list rust_only 3)
             (repo_with (u "own") 1 0))
         (fd_experience d).
Proof.
  eexists. split; [reflexivity|]. split; [reflexivity|].
  apply (proj2 (proj2 (skills_and_experience_cover
                         (static_net octocat with_fork_list rust_only 3)
                         octocat_url (u "octocat") octocat with_fork_list
                         _ eq_refl))).
  - left; reflexivity.
  - reflexivity.
  - reflexivity.
Defined.

Lemma firstn_map_comm {A B : Type} (f : A -> B) (n : nat) (l : list A) :
  firstn n (List.map f l) = List.map f (firstn n l).
Proof.
  revert l; induction n as [|n IH]; intros [|x l]; cbn; [reflexivity ..|].
  rewrite IH. reflexivity.
Qed.

Lemma company_space_out (name : str) :
  replace (u "-") (u " ") (replace (u "_") (u " ") name)
  = List.map space_out name.
Proof.
  change (u "-") with [45]. change (u "_") with [95].
  change (u " ") with [32]. rewrite !replace_single.
  induction name as [|c s IH]; [reflexivity|].
  cbn [flat_map List.map]. rewrite flat_map_app, IH. clear IH.
  unfold replace_char at 2, space_out.
  destruct (char_eqb 95 c); [reflexivity|].
  cbn [flat_map]. unfold replace_char.
  destruct (char_eqb 45 c); reflexivity.
Qed.

(** X4: the projects are built from the repositories of the first three
    experience entries, in the same order and with the same descriptions:
    there are min(3, number of experience entries) of them. *)
Theorem projects_are_first_three_experiences :
  forall (net : Network) (github_url username : str) (user_data : UserData)
         (repos : list Repo) (d : FinalData),
    process_github_data net github_url username user_data repos = Ok d ->
    List.length (fd_projects d) = Nat.min 3 (List.length (fd_experience d))
    /\ List.map proj_description (fd_projects d)
       = firstn 3 (List.map exp_description (fd_experience d))
    /\ List.map (fun p => List.map space_out (proj_name p)) (fd_projects d)
       = firstn 3 (List.map exp_company (fd_experience d)).
Proof.
  intros net github_url username user_data repos d H.
  apply process_github_data_projects in H. destruct H as [Hp [He _]].
  rewrite Hp, He. split; [|split].
  - rewrite length_firstn, !length_map. reflexivity.
  - rewrite <- firstn_map_comm, !map_map. reflexivity.
  - rewrite <- firstn_map_comm, !map_map. f_equal.
    apply map_ext. intros r. symmetry. apply company_space_out.
Qed.

Lemma projects_are_first_three_experiences_witness :
  exists d,
    process_github_data (static_net octocat four_starred python_only 12)
      octocat_url (u "octocat") octocat four_starred = Ok d
    /\ List.length (fd_projects d) = Nat.min 3 (List.length (fd_experience d))
    /\ List.length (fd_experience d) = 4%nat.
Proof.
  eexists. split; [reflexivity|]. split; [|reflexivity].
  exact (proj1 (projects_are_first_three_experiences
                  (static_net octocat four_starred python_only 12)
                  octocat_url (u "octocat") octocat four_starred _ eq_refl)).
Defined.

Lemma space_out_result (c : char) : space_out c <> 95 /\ space_out c <> 45.
Proof.
  unfold space_out.
  destruct (char_eqb 95 c) eqn:E1; [split; discriminate|].
  destruct (char_eqb 45 c) eqn:E2; [split; discriminate|].
  split; intros ->; [rewrite (proj2 (char_eqb_eq 95 95) eq_refl) in E1
                    |rewrite (proj2 (char_eqb_eq 45 45) eq_refl) in E2];
    discriminate.
Qed.

(** X5: the company of an experience entry is the name of its repository
    with every underscore and every hyphen turned into a space, character
    by character: it has the length of the name and holds neither of the
    two; the position is always "Lead Developer". *)
Theorem experience_company_from_name :
  forall (net : Network) (github_url username : str) (user_data : UserData)
         (repos : list Repo) (d : FinalData),
    process_github_data net github_url username user_data repos = Ok d ->
    forall e,
      In e (fd_experience d) ->
      ~ In 95 (exp_company e)
      /\ ~ In 45 (exp_company e)
      /\ exp_position e = u "Lead Developer"
      /\ exists r,
           In r repos
           /\ exp_company e = List.map space_out (repo_name r)
           /\ List.length (exp_company e) = List.length (repo_name r).
Proof.
  intros net github_url username user_data repos d H e He.
  apply process_github_data_projects in H. destruct H as [_ [Hexp _]].
  rewrite Hexp in He. apply in_map_iff in He. destruct He as [r [<- Hr]].
  apply chosen_repos_In in Hr. destruct Hr as [Hr _].
  cbn [exp_company exp_position experience_of].
  rewrite company_space_out.
  split; [|split; [|split; [reflexivity|]]].
  - intros Hin. apply in_map_iff in Hin. destruct Hin as [c [Hc _]].
    exact (proj1 (space_out_result c) Hc).
  - intros Hin. apply in_map_iff in Hin. destruct Hin as [c [Hc _]].
    exact (proj2 (space_out_result c) Hc).
  - exists r. split; [exact Hr|]. split; [reflexivity|apply length_map].
Qed.

Lemma experience_company_from_name_witness :
  exists d e,
    process_github_data
      (static_net octocat [repo_with (u "my_first-repo") 2 0] python_only 1)
      octocat_url (u "octocat") octocat [repo_with (u "my_first-repo") 2 0]
    = Ok d
    /\ fd_experience d = [e]
    /\ exp_company e = u "my first repo"
    /\ ~ In 95 (exp_company e).
Proof.
  eexists. eexists. split; [reflexivity|]. split; [reflexivity|].
  split; [reflexivity|].
  apply (experience_company_from_name
           (static_net octocat [repo_with (u "my_first-repo") 2 0]
              python_only 1)
           octocat_url (u "octocat") octocat
           [repo_with (u "my_first-repo") 2 0] _ eq_refl).
  left. reflexivity.
Defined.

(** ** The user name taken from the address *)

Lemma split_char_cons (sep c : char) (rest : str) :
  split_char sep (c :: rest)
  = if char_eqb c sep then [] :: split_char sep rest
    else match split_char sep rest with
         | [] => [[c]]
         | w :: ws => (c :: w) :: ws
         end.
Proof. reflexivity. Qed.

Lemma split_char_last (sep : char) (t : str) :
  exists pre,
    t = pre ++ last (split_char sep t) []
    /\ ~ In sep (last (split_char sep t) [])
    /\ ((pre = [] /\ exists w, split_char sep t = [w])
        \/ ((exists p, pre = p ++ [sep])
            /\ exists w w' ws, split_char sep t = w :: w' :: ws)).
Proof.
  induction t as [|c rest [pre [Ht [Hn Hs]]]].
  - exists []. cbn. split; [reflexivity|]. split; [tauto|]. left. eauto.
  - rewrite split_char_cons. destruct (char_eqb c sep) eqn:E.
    + apply char_eqb_eq in E. subst c.
      exists (sep :: pre).
      destruct Hs as [[Hp [w Hw]]|[[p Hp] [w [w' [ws Hw]]]]]; subst pre;
        rewrite Hw in *.
      * cbn [last app] in *. split; [f_equal; exact Ht|].
        split; [exact Hn|]. right. split; [exists []; reflexivity|eauto].
      * split; [cbn [app]; f_equal; exact Ht|]. split; [exact Hn|].
        right. split; [exists (sep :: p); reflexivity|eauto].
    + assert (Hc : c <> sep).
      { intros ->. rewrite (proj2 (char_eqb_eq sep sep) eq_refl) in E.
        discriminate. }
      destruct Hs as [[Hp [w Hw]]|[[p Hp] [w [w' [ws Hw]]]]]; subst pre;
        rewrite Hw in *.
      * cbn [last app] in *. exists []. split; [cbn; f_equal; exact Ht|].
        split; [|left; eauto].
        intros [H|H]; [congruence|contradiction].
      * exists (c :: p ++ [sep]).
        split; [cbn [app]; f_equal; exact Ht|]. split; [exact Hn|].
        right. split; [exists (c :: p); reflexivity|eauto].
Qed.

Lemma join_split_char (sep : char) (t : str) :
  join [sep] (split_char sep t) = t.
Proof.
  induction t as [|c rest IH]; [reflexivity|].
  rewrite split_char_cons.
  destruct (split_char_last sep rest) as [pre [_ [_ Hs]]].
  destruct (char_eqb c sep) eqn:E.
  - apply char_eqb_eq in E. subst c.
    destruct Hs as [[_ [w Hw]]|[_ [w [w' [ws Hw]]]]]; rewrite Hw in *;
      cbn [join app] in *; rewrite IH; reflexivity.
  - destruct Hs as [[_ [w Hw]]|[_ [w [w' [ws Hw]]]]]; rewrite Hw in *;
      cbn [join app] in *; rewrite <- IH; reflexivity.
Qed.

(** X6: the user name [github_url.split('/')[-1]] is what follows the
    last slash of the address (the whole address when it has none): it
    holds no slash, an address ending in a slash gives the empty name, and
    joining the pieces of the split with slashes gives the address back. *)
Theorem username_follows_last_slash :
  forall github_url : str,
    let username := last (split_char 47 github_url) [] in
    ~ In 47 username
    /\ (exists pre,
          github_url = pre ++ username
          /\ (pre = [] \/ exists p, pre = p ++ u "/"))
    /\ (forall p, github_url = p ++ u "/" -> username = [])
    /\ join (u "/") (split_char 47 github_url) = github_url.
Proof.
  intros github_url username.
  destruct (split_char_last 47 github_url) as [pre [Ht [Hn Hs]]].
  fold username in Ht, Hn.
  split; [exact Hn|]. split; [|split].
  - exists pre. split; [exact Ht|].
    destruct Hs as [[Hp _]|[[p Hp] _]]; [left; exact Hp|right; eauto].
  - intros p Hp.
    destruct (rev username) as [|z r] eqn:R.
    + apply (f_equal (@rev _)) in R. rewrite rev_involutive in R. exact R.
    + exfalso. apply Hn.
      apply (f_equal (@rev _)) in R. rewrite rev_involutive in R.
      cbn [rev] in R. rewrite R in Ht |- *.
      rewrite Hp, app_assoc in Ht. apply app_inj_tail in Ht.
      destruct Ht as [_ <-]. apply in_or_app. right. left. reflexivity.
  - apply join_split_char.
Qed.

Lemma username_follows_last_slash_witness :
  last (split_char 47 (u "https://github.com/octocat/")) [] = []
  /\ last (split_char 47 octocat_url) [] = u "octocat".
Proof.
  split; [|reflexivity].
  exact (proj1 (proj2 (proj2 (username_follows_last_slash
                                 (u "https://github.com/octocat/"))))
           (u "https://github.com/octocat") eq_refl).
Defined.

(** ** What [escape_latex] writes *)

Lemma lstrip_spaces (t : str) :
  exists p, t = p ++ lstrip t /\ forallb isspace p = true.
Proof.
  induction t as [|c t [p [Hp Hs]]]; [exists []; split; reflexivity|].
  cbn [lstrip]. destruct (isspace c) eqn:E.
  - exists (c :: p). cbn [app forallb]. rewrite E, Hs.
    split; [f_equal; exact Hp | reflexivity].
  - exists []. split; reflexivity.
Qed.

Lemma specials_escaped_app (a b : str) :
  specials_escaped a = true -> specials_escaped b = true ->
  head_plain b = true -> specials_escaped (a ++ b) = true.
Proof.
  intros Ha Hb Hh. induction a as [|x a IH]; [exact Hb|].
  cbn [app specials_escaped] in *. apply andb_true_iff in Ha.
  destruct Ha as [H1 H2]. rewrite (IH H2), andb_true_r.
  destruct a as [|y a]; [|exact H1].
  cbn [app]. destruct b as [|z b]; [reflexivity|].
  cbn [head_plain] in Hh. rewrite Hh. reflexivity.
Qed.

Lemma head_plain_app (a b : str) :
  head_plain a = true -> head_plain b = true -> head_plain (a ++ b) = true.
Proof. destruct a; auto. Qed.

Lemma specials_escaped_before (pre : str) :
  forall c post,
    specials_escaped (pre ++ c :: post) = true ->
    needs_backslash c = true ->
    pre = [] \/ exists pre', pre = pre' ++ [92].
Proof.
  induction pre as [|x pre IH]; intros c post H Hc; [left; reflexivity|].
  right. cbn [app specials_escaped] in H. apply andb_true_iff in H.
  destruct H as [H1 H2]. destruct pre as [|y pre].
  - cbn [app] in H1. rewrite Hc in H1. cbn [negb orb] in H1.
    apply char_eqb_eq in H1. subst x. exists []. reflexivity.
  - destruct (IH _ _ H2 Hc) as [E|[pre' E]]; [discriminate|].
    rewrite E. exists (x :: pre'). reflexivity.
Qed.

Ltac rewrite_char_tests c :=
  repeat match goal with
         | H : char_eqb _ c = false |- _ => rewrite ?H; clear H
         end.

Lemma escape_char_escaped (ip : char -> bool) (c : char) :
  head_plain (escape_char ip c) = true
  /\ specials_escaped (escape_char ip c) = true
  /\ forallb (fun x => negb (replaced_by_command x)) (escape_char ip c)
     = true.
Proof.
  unfold escape_char.
  destruct (is_ascii c); [|repeat split].
  repeat match goal with
         | |- context [if char_eqb ?k c then _ else _] =>
             destruct (char_eqb k c) eqn:?; [repeat split|]
         end.
  destruct (isprintable ip c); [|repeat split].
  cbn [head_plain specials_escaped forallb].
  unfold needs_backslash, replaced_by_command.
  rewrite_char_tests c. repeat split.
Qed.

Lemma escape_latex_unstripped_escaped (ip : char -> bool) (text : str) :
  head_plain (escape_latex_unstripped ip text) = true
  /\ specials_escaped (escape_latex_unstripped ip text) = true
  /\ forallb (fun x => negb (replaced_by_command x))
       (escape_latex_unstripped ip text) = true.
Proof.
  rewrite escape_latex_unstripped_chars.
  induction text as [|c text [IH1 [IH2 IH3]]]; [repeat split|].
  cbn [flat_map]. destruct (escape_char_escaped ip c) as [H1 [H2 H3]].
  split; [apply head_plain_app; assumption|].
  split; [apply specials_escaped_app; assumption|].
  rewrite forallb_app, H3, IH3. reflexivity.
Qed.

(** X7: in the output of [escape_latex] every ampersand, percent sign,
    dollar sign, hash and underscore directly follows a backslash, and the
    characters "<", ">", "~" and "^" do not occur. *)
Theorem escape_latex_escapes_specials :
  forall (ip : char -> bool) (text : str),
    (forall pre c post,
        escape_latex ip text = pre ++ c :: post ->
        In c (u "&%$#_") ->
        exists pre', pre = pre' ++ u "\")
    /\ (forall c, In c (u "<>~^") -> ~ In c (escape_latex ip text)).
Proof.
  intros ip text. rewrite escape_latex_strip.
  destruct (escape_latex_unstripped_escaped ip text) as [Hh [Hs Hn]].
  split.
  - intros pre c post Hout Hc.
    assert (Hc' : needs_backslash c = true).
    { cbn in Hc. repeat (destruct Hc as [<-|Hc]; [reflexivity|]).
      contradiction. }
    unfold strip in Hout.
    destruct (lstrip_spaces (escape_latex_unstripped ip text))
      as [p [Hp Hsp]].
    destruct (rstrip_prefix (lstrip (escape_latex_unstripped ip text)))
      as [q Hq].
    rewrite Hout in Hq. rewrite Hq in Hp.
    rewrite Hp in Hs, Hh.
    replace (p ++ (pre ++ c :: post) ++ q)
      with ((p ++ pre) ++ c :: (post ++ q)) in Hs, Hh
      by (rewrite <- !app_assoc; reflexivity).
    destruct (specials_escaped_before _ _ _ Hs Hc') as [E|[pre' E]].
    + apply app_eq_nil in E. destruct E as [-> ->].
      cbn [app head_plain] in Hh. rewrite Hc' in Hh. discriminate.
    + destruct (rev pre) as [|z r] eqn:R.
      * apply (f_equal (@rev _)) in R. rewrite rev_involutive in R.
        cbn in R. subst pre. rewrite app_nil_r in E. subst p.
        rewrite forallb_app in Hsp. apply andb_true_iff in Hsp.
        destruct Hsp as [_ Hsp]. discriminate.
      * apply (f_equal (@rev _)) in R. rewrite rev_involutive in R.
        cbn [rev] in R. subst pre. rewrite app_assoc in E.
        apply app_inj_tail in E. destruct E as [_ ->].
        exists (rev r). reflexivity.
  - intros c Hc Hin.
    assert (Hc' : replaced_by_command c = true).
    { cbn in Hc. repeat (destruct Hc as [<-|Hc]; [reflexivity|]).
      contradiction. }
    assert (F : Forall (fun x => negb (replaced_by_command x) = true)
                  (strip (escape_latex_unstripped ip text))).
    { apply strip_Forall. apply Forall_forall. intros x Hx.
      rewrite forallb_forall in Hn. auto. }
    rewrite Forall_forall in F. specialize (F c Hin).
    rewrite Hc' in F. discriminate.
Qed.

Lemma escape_latex_escapes_specials_witness :
  escape_latex (fun _ => true) (u "R&D <50%>")
  = u "R\&D \textless{}50\%\textgreater{}"
  /\ exists pre', u "R\&D \textless{}50\" = pre' ++ u "\".
Proof.
  split; [reflexivity|].
  apply (proj1 (escape_latex_escapes_specials (fun _ => true)
                  (u "R&D <50%>"))
           (u "R\&D \textless{}50\") 37 (u "\textgreater{}")).
  - reflexivity.
  - vm_compute. tauto.
Defined.

(** ** Text the sanitisers leave alone *)

Lemma sanitize_char_cases (c : char) :
  (plain_for_sanitize c = true -> sanitize_char c = [c])
  /\ (is_ascii c = true ->
      (1 <= List.length (sanitize_char c))%nat
      /\ (List.length (sanitize_char c) = 1%nat ->
          plain_for_sanitize c = true))
  /\ forallb plain_for_sanitize (sanitize_char c)
     = plain_for_sanitize c || negb (is_ascii c).
Proof.
  unfold plain_for_sanitize at 1 2 4, rewritten_by_sanitize, sanitize_char.
  let t := eval vm_compute in Sanitize.replacements in
  change Sanitize.replacements with t.
  cbn [existsb fst str_eqb]. rewrite !andb_true_r.
  destruct (is_ascii c) eqn:A;
    [|split; [discriminate|split; [discriminate|reflexivity]]].
  repeat match goal with
         | |- context [if char_eqb ?k c then _ else _] =>
             destruct (char_eqb k c) eqn:?;
               [split; [discriminate|];
                split; [intros _; split; [cbn; lia|discriminate]
                       |reflexivity]|]
         end.
  cbn [orb negb andb List.length forallb].
  unfold plain_for_sanitize, rewritten_by_sanitize.
  let t := eval vm_compute in Sanitize.replacements in
  change Sanitize.replacements with t.
  cbn [existsb fst str_eqb]. rewrite A.
  rewrite_char_tests c. cbn.
  split; [reflexivity|]. split; [intros _; split; [lia|reflexivity]|].
  reflexivity.
Qed.

Lemma sanitize_plain (text : str) :
  forallb plain_for_sanitize text = true -> sanitize (PyStr text) = text.
Proof.
  rewrite sanitize_chars.
  induction text as [|c text IH]; [reflexivity|].
  cbn [forallb flat_map]. intros H. apply andb_true_iff in H.
  destruct H as [Hc Ht].
  rewrite (proj1 (sanitize_char_cases c) Hc), (IH Ht). reflexivity.
Qed.

Lemma sanitize_chars_length (text : str) :
  Forall (fun c => c < 128) text ->
  (List.length text <= List.length (flat_map sanitize_char text))%nat
  /\ (List.length (flat_map sanitize_char text) = List.length text ->
      forallb plain_for_sanitize text = true).
Proof.
  induction 1 as [|c text Hc _ [IH1 IH2]]; [split; [cbn; lia|reflexivity]|].
  cbn [flat_map forallb List.length]. rewrite length_app.
  apply is_ascii_lt in Hc.
  destruct (proj1 (proj2 (sanitize_char_cases c)) Hc) as [L1 L2].
  split; [lia|]. intros E.
  rewrite L2 by lia. apply IH2. lia.
Qed.

Lemma forallb_flat_map {A B : Type} (p : B -> bool) (f : A -> list B)
    (l : list A) :
  forallb p (flat_map f l) = forallb (fun x => forallb p (f x)) l.
Proof.
  induction l as [|x l IH]; [reflexivity|].
  cbn [flat_map forallb]. rewrite forallb_app, IH. reflexivity.
Qed.

(** X8: [sanitize] returns its input unchanged exactly when the input is
    ASCII text without any of the thirteen characters it rewrites; and a
    second application changes the result of the first exactly when the
    input has one of these characters: it is a one-shot transform. *)
Theorem sanitize_fixed_points :
  forall text : str,
    (sanitize (PyStr text) = text
     <-> forallb plain_for_sanitize text = true)
    /\ (sanitize (PyStr (sanitize (PyStr text))) = sanitize (PyStr text)
        <-> forallb plain_for_sanitize (filter is_ascii text) = true).
Proof.
  assert (F : forall text : str,
             sanitize (PyStr text) = text
             <-> forallb plain_for_sanitize text = true).
  { intros text. split; [|apply sanitize_plain].
    intros E.
    assert (Ha : Forall (fun c => c < 128) text)
      by (rewrite <- E; apply sanitize_ascii).
    apply (sanitize_chars_length text Ha).
    rewrite <- sanitize_chars, E. reflexivity. }
  intros text. split; [apply F|].
  rewrite F, sanitize_chars, forallb_flat_map.
  induction text as [|c text IH]; [reflexivity|].
  cbn [forallb filter].
  rewrite (proj2 (proj2 (sanitize_char_cases c))).
  unfold plain_for_sanitize at 1.
  destruct (is_ascii c) eqn:A; cbn [forallb andb orb negb].
  - unfold plain_for_sanitize at 2. rewrite A. cbn [andb].
    rewrite orb_false_r, !andb_true_iff, IH. reflexivity.
  - exact IH.
Qed.

Lemma strip_unchanged (text : str) :
  no_outer_whitespace text = true -> strip text = text.
Proof.
  destruct text as [|c r]; [reflexivity|].
  unfold no_outer_whitespace. intros H. apply andb_true_iff in H.
  destruct H as [H1 H2]. apply negb_true_iff in H1, H2.
  unfold strip. cbn [lstrip]. rewrite H1.
  remember (c :: r) as t eqn:T.
  assert (E : t = removelast t ++ [last t c])
    by (apply app_removelast_last; subst t; discriminate).
  rewrite E. rewrite rstrip_app_nonspace by exact H2. reflexivity.
Qed.

Lemma escape_char_plain (ip : char -> bool) (c : char) :
  plain_for_sanitize c = true -> isprintable ip c = true ->
  escape_char ip c = [c].
Proof.
  unfold plain_for_sanitize, rewritten_by_sanitize, escape_char.
  let t := eval vm_compute in Sanitize.replacements in
  change Sanitize.replacements with t.
  cbn [existsb fst str_eqb]. rewrite !andb_true_r.
  destruct (is_ascii c); [|discriminate].
  repeat match goal with
         | |- context [if char_eqb ?k c then _ else _] =>
             destruct (char_eqb k c);
               [cbn; rewrite ?orb_true_r; discriminate|]
         end.
  intros _ ->. reflexivity.
Qed.

(** X9: on printable ASCII text that has none of the rewritten characters
    and no whitespace at either end, [escape_latex] and [sanitize] agree:
    both return the text unchanged. *)
Theorem sanitisers_agree_on_plain_text :
  forall (ip : char -> bool) (text : str),
    forallb plain_for_sanitize text = true ->
    forallb (isprintable ip) text = true ->
    no_outer_whitespace text = true ->
    escape_latex ip text = text /\ sanitize (PyStr text) = text.
Proof.
  intros ip text Hp Hi Hw. split; [|apply sanitize_plain; exact Hp].
  rewrite escape_latex_strip, escape_latex_unstripped_chars.
  replace (flat_map (escape_char ip) text) with text;
    [apply strip_unchanged; exact Hw|].
  clear Hw. induction text as [|c text IH]; [reflexivity|].
  cbn [forallb flat_map] in *. apply andb_true_iff in Hp, Hi.
  destruct Hp as [Hc Hp], Hi as [Hic Hi].
  rewrite (escape_char_plain ip c Hc Hic), <- (IH Hp Hi). reflexivity.
Qed.

Lemma sanitisers_agree_on_plain_text_witness :
  escape_latex (fun _ => true) (u "Lead Developer") = u "Lead Developer"
  /\ sanitize (PyStr (u "Lead Developer")) = u "Lead Developer".
Proof.
  apply sanitisers_agree_on_plain_text; reflexivity.
Defined.

Lemma sanitize_fixed_points_witness :
  sanitize (PyStr (u "Lead Developer")) = u "Lead Developer"
  /\ sanitize (PyStr (sanitize (PyStr (u "R&D")))) <> sanitize (PyStr (u "R&D")).
Proof.
  split.
  - apply (proj2 (proj1 (sanitize_fixed_points (u "Lead Developer")))).
    reflexivity.
  - intros E.
    apply (proj1 (proj2 (sanitize_fixed_points (u "R&D")))) in E.
    vm_compute in E. discriminate.
Defined.

(** ** The fragments of [generate_latex_resume] *)

Lemma ascii_literal (s : str) :
  forallb is_ascii s = true -> Forall (fun c => c < 128) s.
Proof.
  intros H. apply Forall_forall. intros c Hc. apply is_ascii_lt.
  rewrite forallb_forall in H. auto.
Qed.

Lemma join_Forall (P : char -> Prop) (sep : str) (items : list str) :
  Forall P sep -> Forall (Forall P) items -> Forall P (join sep items).
Proof.
  intros Hsep H. induction H as [|x items Hx Hitems IH]; [constructor|].
  cbn [join]. destruct items as [|y items]; [exact Hx|].
  apply Forall_app; split; [exact Hx|].
  apply Forall_app; split; [exact Hsep | exact IH].
Qed.

Lemma map_Forall {A : Type} (P : char -> Prop) (f : A -> str) (l : list A) :
  (forall x, Forall P (f x)) -> Forall (Forall P) (List.map f l).
Proof.
  intros H. apply Forall_forall. intros s Hs.
  apply in_map_iff in Hs. destruct Hs as [x [<- _]]. apply H.
Qed.

(** Splits an ASCII goal along the concatenations of a fragment. *)
Ltac ascii_parts :=
  repeat first
    [ apply Forall_app; split
    | apply sanitize_ascii
    | apply ascii_literal; reflexivity
    | apply join_Forall
    | apply map_Forall; intros ? ].

(** X10: whatever the extracted facts hold, the six fragments that
    [generate_latex_resume] puts into the template consist of ASCII
    characters only; so the rendering of an ASCII template is ASCII. *)
Theorem generated_fragments_are_ascii :
  forall d : FinalData,
    Forall (fun kv => Forall (fun c => c < 128) (snd kv)) (replacements d)
    /\ forall template,
         Forall (fun c => c < 128) template ->
         Forall (fun c => c < 128) (generate_latex_resume template d).
Proof.
  intros d.
  assert (H : Forall (fun kv => Forall (fun c => c < 128) (snd kv))
                (replacements d)).
  { unfold replacements.
    apply Forall_cons; [cbn [snd]; ascii_parts|].
    apply Forall_cons; [cbn [snd]; unfold skills_section; ascii_parts|].
    apply Forall_cons;
      [cbn [snd];
       unfold experience_section, experience_items, experience_item;
       ascii_parts|].
    apply Forall_cons;
      [cbn [snd]; unfold projects_section, project_items, project_item;
       ascii_parts|].
    apply Forall_cons;
      [cbn [snd]; unfold education_section, education_item; ascii_parts|].
    apply Forall_cons; [cbn [snd]; unfold contact_section; ascii_parts|].
    apply Forall_nil. }
  split; [exact H|].
  intros template Ht. unfold generate_latex_resume, render.
  apply replace_each_Forall; assumption.
Qed.

Lemma generated_fragments_are_ascii_witness :
  Forall (fun c => c < 128)
    (generate_latex_resume (u "Name: " ++ TemplateBlock.name)
       {| fd_name := PyStr (u "Zo" ++ [235]); fd_email := PyNone;
          fd_phone := []; fd_location := PyNone; fd_bio := PyNone;
          fd_skills := []; fd_projects := []; fd_experience := [];
          fd_education := []; fd_profile_url := []; fd_blog := PyNone;
          fd_company := PyNone; fd_followers := 0; fd_following := 0;
          fd_public_repos := 0 |}).
Proof.
  apply (proj2 (generated_fragments_are_ascii _)).
  apply ascii_literal. reflexivity.
Defined.

Lemma str_in_In (x : str) (names : list str) :
  str_in x names = true <-> In x names.
Proof.
  unfold str_in. rewrite existsb_exists. split.
  - intros [y [Hy E]]. apply str_eqb_eq in E. subst y. exact Hy.
  - intros H. exists x. split; [exact H | apply str_eqb_refl].
Qed.

Lemma filter_partition {A : Type} (p : A -> bool) (l : list A) :
  Permutation l (filter p l ++ filter (fun x => negb (p x)) l).
Proof.
  induction l as [|x l IH]; [reflexivity|].
  cbn [filter]. destruct (p x); cbn [negb app].
  - constructor. exact IH.
  - apply Permutation_cons_app. exact IH.
Qed.

(** X11: the skills line "Programming Languages" holds the skills of the
    fixed list of seven names and the line "Technologies" all the others,
    each in the order of the skills: testing a skill against the languages
    found is testing it against the fixed list, so that the two lines
    split the skills, none lost and none in both. *)
Theorem skills_section_splits_skills :
  forall d : FinalData,
    let known := fun lang => str_in lang programming_language_names in
    let programming_languages := filter known (fd_skills d) in
    let technologies := filter (fun lang => negb (known lang)) (fd_skills d) in
    skills_section d
    = u "\begin{itemize}[leftmargin=0.15in, label={}]" ++ nl
        ++ u "    \small{\item{" ++ nl
        ++ u "    \textbf{Programming Languages}: "
        ++ sanitize (PyStr (join (u ", ") programming_languages))
        ++ u " \\" ++ nl
        ++ u "    \textbf{Technologies}: "
        ++ sanitize (PyStr (join (u ", ") technologies)) ++ u " \\" ++ nl
        ++ u "    }}" ++ nl
        ++ u "\end{itemize}"
    /\ Permutation (fd_skills d) (programming_languages ++ technologies)
    /\ forall s, In s programming_languages -> ~ In s technologies.
Proof.
  intros d known programming_languages technologies.
  split; [|split].
  - unfold skills_section. fold known. fold programming_languages.
    replace (filter (fun lang => negb (str_in lang programming_languages))
               (fd_skills d))
      with technologies; [reflexivity|].
    unfold technologies. apply filter_ext_in. intros s Hs. f_equal.
    destruct (known s) eqn:K.
    + symmetry. apply str_in_In. apply filter_In. auto.
    + destruct (str_in s programming_languages) eqn:E; [|reflexivity].
      apply str_in_In, filter_In in E. destruct E as [_ E]. congruence.
  - apply filter_partition.
  - intros s H1 H2. apply filter_In in H1, H2.
    destruct H1 as [_ H1], H2 as [_ H2]. rewrite H1 in H2. discriminate.
Qed.

Lemma skills_section_splits_skills_witness :
  ~ In (u "Python")
      (filter (fun lang => negb (str_in lang programming_language_names))
         [u "Docker"; u "Go"; u "Python"]).
Proof.
  apply (proj2 (proj2 (skills_section_splits_skills
           {| fd_name := PyNone; fd_email := PyNone;
              fd_phone := []; fd_location := PyNone; fd_bio := PyNone;
              fd_skills := [u "Docker"; u "Go"; u "Python"];
              fd_projects := []; fd_experience := [];
              fd_education := []; fd_profile_url := []; fd_blog := PyNone;
              fd_company := PyNone; fd_followers := 0; fd_following := 0;
              fd_public_repos := 0 |}))).
  vm_compute. tauto.
Defined.

(** ** [ResumeStructureAgent] *)



Lemma for_each_map {A B : Type} (f : A -> outcome B) (g : A -> B)
    (xs : list A) :
  (forall x, In x xs -> f x = Returns (g x)) ->
  for_each f xs = Returns (List.map g xs).
Proof.
  induction xs as [|x xs IH]; intros H; [reflexivity|].
  cbn [for_each List.map]. rewrite (H x (or_introl eq_refl)).
  cbn [and_then]. rewrite IH by (intros y Hy; apply H; right; exact Hy).
  reflexivity.
Qed.









(** X13: the experience and projects sections of [generate_latex_resume]
    are what [ResumeStructureAgent] formats from the same entries once
    their texts are sanitised: the two formatters of the repository write
    the same markup. *)
Theorem sections_match_structure_agent :
  forall d : FinalData,
    _format_experience (List.map (experience_entry d) (fd_experience d))
    = Returns (experience_section d)
    /\ _format_projects (List.map project_entry (fd_projects d))
       = Returns (projects_section d).
Proof.
  intros d. split.
  - unfold _format_experience, experience_section, experience_items.
    rewrite firstn_map_comm.
    rewrite for_each_map with (g := fun x =>
      match x with
      | IDict e =>
          u "\resumeSubheading" ++ nl
            ++ u "            {" ++ dict_get (entry_company e) []
            ++ u "}{" ++ dict_get (entry_location e) [] ++ u "}" ++ nl
            ++ u "            {" ++ dict_get (entry_position e) []
            ++ u "}{" ++ dict_get (entry_date e) [] ++ u "}" ++ nl
            ++ u "            \resumeItemListStart" ++ nl
            ++ u "            \resumeItem{"
            ++ dict_get (entry_description e) [] ++ u "}" ++ nl
            ++ u "            \resumeItemListEnd"
      | IStr s => s
      end).
    + cbn [and_then]. rewrite map_map. reflexivity.
    + intros x Hx. apply in_map_iff in Hx. destruct Hx as [e [<- _]].
      reflexivity.
  - unfold _format_projects, projects_section, project_items.
    rewrite firstn_map_comm.
    rewrite for_each_map with (g := fun x =>
      match x with
      | IDict e =>
          u "\resumeSubheading" ++ nl
            ++ u "                {" ++ dict_get (entry_name e) []
            ++ u "}{" ++ dict_get (entry_platform e) [] ++ u "}" ++ nl
            ++ u "                {Project}{"
            ++ join (u ", ") (dict_get (entry_technologies e) [])
            ++ u "}" ++ nl
            ++ u "                \resumeItemListStart" ++ nl
            ++ u "                \resumeItem{"
            ++ dict_get (entry_description e) [] ++ u "}" ++ nl
            ++ u "                \resumeItemListEnd"
      | IStr s => s
      end).
    + cbn [and_then]. rewrite map_map. reflexivity.
    + intros x Hx. apply in_map_iff in Hx. destruct Hx as [p [<- _]].
      reflexivity.
Qed.

(** ** [ResumeWorkflow.generate_resume] *)


Lemma replace_from_skips (old new k rest : str) :
  replace_from old new (List.length k) (k ++ rest)
  = replace_from old new 0 rest.
Proof.
  induction k as [|c k IH]; [destruct rest; reflexivity|].
  cbn [List.length app replace_from]. exact IH.
Qed.








(** * The renderer against independent substitution *)

(** ** Clashing texts *)

Lemma clash_sym (a : str) : forall b, clash a b = clash b a.
Proof.
  induction a as [|x a IH]; intros [|y b]; try reflexivity.
  cbn [clash]. rewrite IH. unfold char_eqb. rewrite (N.eqb_sym x y).
  reflexivity.
Qed.

Lemma clash_not_prefix (a : str) :
  forall b z, clash a b = true -> startswith a (b ++ z) = false.
Proof.
  induction a as [|x a IH]; intros [|y b] z H; try discriminate.
  cbn [clash app startswith] in *.
  destruct (char_eqb x y); [|reflexivity].
  cbn [negb orb andb] in *. exact (IH _ _ H).
Qed.

Lemma clash_not_prefix_of (a b z : str) :
  clash a b = true -> startswith b (a ++ z) = false.
Proof. rewrite clash_sym. apply clash_not_prefix. Qed.

Lemma clash_app_r (a : str) :
  forall b z, clash a b = true -> clash a (b ++ z) = true.
Proof.
  induction a as [|x a IH]; intros [|y b] z H; try discriminate.
  cbn [clash app] in *. destruct (negb (char_eqb x y)); [reflexivity|].
  cbn [orb] in *. exact (IH _ _ H).
Qed.

Lemma clash_common_prefix (a : str) :
  forall b t,
    startswith a t = true -> startswith b t = true -> clash a b = false.
Proof.
  induction a as [|x a IH]; intros [|y b] t Ha Hb; try reflexivity.
  destruct t as [|c t]; [discriminate|].
  cbn [startswith clash] in *.
  apply andb_true_iff in Ha, Hb. destruct Ha as [Ea Ha], Hb as [Eb Hb].
  apply char_eqb_eq in Ea, Eb. subst x y.
  rewrite (proj2 (char_eqb_eq c c) eq_refl). cbn [negb orb].
  exact (IH _ _ Ha Hb).
Qed.

Lemma every_suffix_app (p : str -> bool) (x y : str) :
  every_suffix p (x ++ y)
  = every_suffix (fun b => p (b ++ y)) x && every_suffix p y.
Proof.
  induction x as [|c x IH]; [reflexivity|].
  cbn [app every_suffix]. rewrite IH, andb_assoc. reflexivity.
Qed.

Lemma every_suffix_impl (p q : str -> bool) (s : str) :
  (forall b, p b = true -> q b = true) ->
  every_suffix p s = true -> every_suffix q s = true.
Proof.
  intros H. induction s as [|c s IH]; [reflexivity|].
  cbn [every_suffix]. rewrite !andb_true_iff. intros [H1 H2]. auto.
Qed.

Lemma every_suffix_andb (p q : str -> bool) (s : str) :
  every_suffix (fun b => p b && q b) s
  = every_suffix p s && every_suffix q s.
Proof.
  induction s as [|c s IH]; [reflexivity|].
  cbn [every_suffix]. rewrite IH.
  destruct (p (c :: s)), (q (c :: s)), (every_suffix p s); reflexivity.
Qed.

(** ** One scan of the template *)

Lemma first_match_Some (table : list (str * str)) (text : str)
    (kv : str * str) :
  first_match table text = Some kv ->
  In kv table /\ fst kv <> [] /\ startswith (fst kv) text = true.
Proof.
  induction table as [|kv' table IH]; [discriminate|].
  cbn [first_match]. destruct (fst kv') as [|k0 k] eqn:E.
  - intros H. destruct (IH H) as [H1 H2]. split; [right; exact H1|exact H2].
  - destruct (startswith (k0 :: k) text) eqn:S.
    + intros H. inversion H; subst kv'. rewrite E.
      split; [left; reflexivity|]. split; [discriminate|exact S].
    + intros H. destruct (IH H) as [H1 H2].
      split; [right; exact H1|exact H2].
Qed.

Lemma first_match_None (table : list (str * str)) (text : str) :
  first_match table text = None ->
  forall kv, In kv table -> fst kv <> [] -> startswith (fst kv) text = false.
Proof.
  induction table as [|kv' table IH]; intros H kv []; subst.
  - cbn [first_match] in H. destruct (fst kv) as [|k0 k]; [congruence|].
    intros _. destruct (startswith (k0 :: k) text); [discriminate|reflexivity].
  - cbn [first_match] in H. destruct (fst kv') as [|k0 k]; [eauto|].
    destruct (startswith (k0 :: k) text); [discriminate|eauto].
Qed.

Lemma first_match_app (table table' : list (str * str)) (text : str) :
  first_match (table ++ table') text
  = match first_match table text with
    | Some kv => Some kv
    | None => first_match table' text
    end.
Proof.
  induction table as [|kv table IH]; [reflexivity|].
  cbn [app first_match]. destruct (fst kv) as [|k0 k]; [exact IH|].
  destruct (startswith (k0 :: k) text); [reflexivity|exact IH].
Qed.

Lemma render_independent_skips (table : list (str * str)) (k rest : str) :
  render_independent_from table (List.length k) (k ++ rest)
  = render_independent_from table 0 rest.
Proof.
  induction k as [|c k IH]; [destruct rest; reflexivity|].
  cbn [List.length app render_independent_from]. exact IH.
Qed.

Section OneMorePair.

Variable table : list (str * str).
Variable k0 : char.
Variables K' V : str.

Local Abbreviation K := (k0 :: K').

Hypothesis ends_apart :
  forall kv, In kv table ->
    every_suffix (fun s => clash s (fst kv) && clash s (snd kv)) K' = true.
Hypothesis starts_apart :
  forall kv, In kv table -> every_suffix (clash K) (snd kv) = true.

(** No block of the table starts inside an occurrence of [K]. *)
Lemma no_match_inside (s rest : str) :
  (forall kv, In kv table -> clash s (fst kv) = true) ->
  first_match table (s ++ rest) = None.
Proof.
  intros H. destruct (first_match table (s ++ rest)) as [kv|] eqn:E;
    [|reflexivity].
  apply first_match_Some in E. destruct E as [Hin [_ E]].
  rewrite (clash_not_prefix_of _ _ _ (H kv Hin)) in E. discriminate.
Qed.

Lemma copies_suffix (s : str) :
  forall rest,
    (forall kv, In kv table ->
       every_suffix (fun s' => clash s' (fst kv)) s = true) ->
    render_independent_from table 0 (s ++ rest)
    = s ++ render_independent_from table 0 rest.
Proof.
  induction s as [|c s IH]; intros rest H; [reflexivity|].
  assert (H1 : forall kv, In kv table -> clash (c :: s) (fst kv) = true).
  { intros kv Hin. specialize (H kv Hin). cbn [every_suffix] in H.
    apply andb_true_iff in H. tauto. }
  assert (H2 : forall kv, In kv table ->
                 every_suffix (fun s' => clash s' (fst kv)) s = true).
  { intros kv Hin. specialize (H kv Hin). cbn [every_suffix] in H.
    apply andb_true_iff in H. tauto. }
  pose proof (no_match_inside (c :: s) rest H1) as N.
  cbn [app] in *. cbn [render_independent_from]. rewrite N.
  f_equal. exact (IH _ H2).
Qed.

(** Whether a suffix of [K] starts the text is not changed by the
    substitutions of the table. *)
Lemma same_start (s : str) :
  forall text,
    (forall kv, In kv table ->
       every_suffix (fun s' => clash s' (fst kv) && clash s' (snd kv)) s
       = true) ->
    startswith s (render_independent_from table 0 text) = startswith s text.
Proof.
  induction s as [|x s IH]; intros text H; [reflexivity|].
  destruct text as [|c rest]; [reflexivity|].
  cbn [render_independent_from].
  destruct (first_match table (c :: rest)) as [kv|] eqn:E.
  - apply first_match_Some in E. destruct E as [Hin [_ E]].
    specialize (H kv Hin). cbn [every_suffix] in H.
    apply andb_true_iff in H. destruct H as [H _].
    apply andb_true_iff in H. destruct H as [H1 H2].
    rewrite (clash_not_prefix _ _ _ H2).
    destruct (startswith (x :: s) (c :: rest)) eqn:E'; [|reflexivity].
    rewrite (clash_common_prefix _ _ _ E' E) in H1. discriminate.
  - cbn [startswith]. rewrite IH; [reflexivity|].
    intros kv Hin. specialize (H kv Hin). cbn [every_suffix] in H.
    apply andb_true_iff in H. tauto.
Qed.

Lemma replace_passes_fragment (v : str) :
  forall rest,
    every_suffix (clash K) v = true ->
    replace_from K V 0 (v ++ rest) = v ++ replace_from K V 0 rest.
Proof.
  induction v as [|c v IH]; intros rest H; [reflexivity|].
  cbn [every_suffix] in H. apply andb_true_iff in H. destruct H as [H1 H2].
  pose proof (clash_not_prefix _ _ rest H1) as N.
  cbn [app] in *. cbn [replace_from]. rewrite N.
  f_equal. exact (IH _ H2).
Qed.

Lemma replace_at_block (rest : str) :
  replace_from K V 0 (K ++ rest) = V ++ replace_from K V 0 rest.
Proof.
  pose proof (startswith_app K rest) as M.
  cbn [app] in *. cbn [replace_from]. rewrite M.
  replace (List.length K - 1)%nat with (List.length K')
    by (cbn [List.length]; lia).
  rewrite replace_from_skips. reflexivity.
Qed.

(** Replacing one more block after the independent substitution of the
    table is the independent substitution of the table and that block. *)
Lemma replace_after_independent (text : str) :
  forall skip,
    replace_from K V 0 (render_independent_from table skip text)
    = render_independent_from (table ++ [(K, V)]) skip text.
Proof.
  induction text as [|c rest IH]; intros skip; [reflexivity|].
  cbn [render_independent_from]. destruct skip as [|skip]; [|apply IH].
  rewrite first_match_app.
  destruct (first_match table (c :: rest)) as [kv|] eqn:E.
  - apply first_match_Some in E. destruct E as [Hin _].
    rewrite replace_passes_fragment by (apply starts_apart; exact Hin).
    rewrite IH. reflexivity.
  - cbn [first_match fst].
    destruct (startswith K (c :: rest)) eqn:M.
    + cbn [snd fst].
      replace (List.length K - 1)%nat with (List.length K')
        by (cbn [List.length]; lia).
      destruct (startswith_inv _ _ M) as [rest2 E2].
      cbn [app] in E2. inversion E2; subst c rest.
      rewrite <- (IH (List.length K')).
      rewrite !render_independent_skips.
      rewrite copies_suffix.
      * change (k0 :: K' ++ render_independent_from table 0 rest2)
          with (K ++ render_independent_from table 0 rest2).
        apply replace_at_block.
      * intros kv Hin. specialize (ends_apart kv Hin).
        rewrite every_suffix_andb in ends_apart.
        apply andb_true_iff in ends_apart. tauto.
    + cbn [replace_from].
      assert (M' : startswith K
                     (c :: render_independent_from table 0 rest) = false).
      { cbn [startswith] in *. rewrite same_start; [exact M|].
        exact ends_apart. }
      rewrite M'. f_equal. apply IH.
Qed.

End OneMorePair.

(** ** Tables whose blocks keep apart *)

Lemma render_independent_nil (text : str) :
  render_independent_from [] 0 text = text.
Proof.
  induction text as [|c rest IH]; [reflexivity|].
  cbn [render_independent_from first_match]. rewrite IH. reflexivity.
Qed.

Lemma separate_table_front (table : list (str * str)) (kv : str * str) :
  separate_table (table ++ [kv]) -> separate_table table /\ ~ In kv table.
Proof.
  intros [N [E A]]. apply NoDup_remove in N. rewrite app_nil_r in N.
  destruct N as [N Hn]. split; [|exact Hn].
  split; [exact N|]. split.
  - intros kv' H. apply E, in_or_app. left; exact H.
  - intros kv1 kv2 H1 H2. apply A; apply in_or_app; left; assumption.
Qed.

Lemma separate_table_perm (table table' : list (str * str)) :
  Permutation table table' -> separate_table table -> separate_table table'.
Proof.
  intros P [N [E A]]. split; [exact (Permutation_NoDup P N)|]. split.
  - intros kv H. apply E, (Permutation_in _ (Permutation_sym P)), H.
  - intros kv kv' H H'.
    apply A; apply (Permutation_in _ (Permutation_sym P)); assumption.
Qed.

(** On a separate table the chained replacements are the independent
    substitution into the template. *)
Lemma render_separate (table : list (str * str)) :
  separate_table table ->
  forall template, render template table = render_independent template table.
Proof.
  induction table as [|[K V] table IH] using rev_ind; intros Hs template.
  - unfold render_independent. rewrite render_independent_nil. reflexivity.
  - destruct (separate_table_front _ _ Hs) as [Hs' Hn].
    rewrite render_app, (IH Hs'). destruct Hs as [_ [E A]].
    assert (Hin : In (K, V) (table ++ [(K, V)]))
      by (apply in_or_app; right; left; reflexivity).
    assert (HK : K <> []) by exact (E _ Hin).
    destruct K as [|k0 K']; [congruence|].
    assert (Hother : forall kv, In kv table -> keeps_apart (k0 :: K', V) kv).
    { intros kv Hkv. apply A; [exact Hin|apply in_or_app; left; exact Hkv|].
      intros <-. contradiction. }
    unfold render, replace_each, render_independent.
    cbn [fold_left fst snd replace].
    apply replace_after_independent.
    + intros kv Hkv. exact (proj1 (proj2 (Hother kv Hkv))).
    + intros kv Hkv. exact (proj2 (proj2 (Hother kv Hkv))).
Qed.

(** On a separate table at most one block starts at a position, so the
    order of the pairs plays no part in the independent substitution. *)
Lemma first_match_same_pairs (table table' : list (str * str)) (text : str) :
  separate_table table ->
  (forall kv, In kv table <-> In kv table') ->
  first_match table text = first_match table' text.
Proof.
  intros [_ [E A]] Hsame.
  destruct (first_match table text) as [kv|] eqn:M;
    destruct (first_match table' text) as [kv'|] eqn:M'; try reflexivity.
  - apply first_match_Some in M, M'.
    destruct M as [Hin [_ S1]], M' as [Hin' [_ S2]].
    assert (Dec : {kv = kv'} + {kv <> kv'}) by (repeat decide equality).
    destruct Dec as [->|Hne]; [reflexivity|].
    destruct (A kv kv' Hin (proj2 (Hsame kv') Hin') Hne) as [C _].
    rewrite (clash_common_prefix _ _ _ S1 S2) in C. discriminate.
  - apply first_match_Some in M. destruct M as [Hin [Hk S1]].
    rewrite (first_match_None _ _ M' kv (proj1 (Hsame kv) Hin) Hk) in S1.
    discriminate.
  - apply first_match_Some in M'. destruct M' as [Hin' [Hk S1]].
    rewrite (first_match_None _ _ M kv' (proj2 (Hsame kv') Hin') Hk) in S1.
    discriminate.
Qed.

Lemma render_independent_same_pairs (table table' : list (str * str)) :
  separate_table table ->
  (forall kv, In kv table <-> In kv table') ->
  forall text skip,
    render_independent_from table skip text
    = render_independent_from table' skip text.
Proof.
  intros Hs Hsame. induction text as [|c rest IH]; intros skip;
    [reflexivity|].
  cbn [render_independent_from]. destruct skip as [|skip]; [|apply IH].
  rewrite (first_match_same_pairs _ _ (c :: rest) Hs Hsame).
  destruct (first_match table' (c :: rest)); rewrite IH; reflexivity.
Qed.

(** ** Fragments in which no block starts *)

Lemma apart_app (K x y : str) :
  every_suffix (clash K) x = true ->
  every_suffix (clash K) y = true ->
  every_suffix (clash K) (x ++ y) = true.
Proof.
  intros Hx Hy. rewrite every_suffix_app, Hy, andb_true_r.
  revert Hx. apply every_suffix_impl. intros b. apply clash_app_r.
Qed.

(** The same with the start [ahead] of what follows taken into account. *)
Lemma apart_app_ahead (K x ahead y : str) :
  every_suffix (fun b => clash K (b ++ ahead)) x = true ->
  startswith ahead y = true ->
  every_suffix (clash K) y = true ->
  every_suffix (clash K) (x ++ y) = true.
Proof.
  intros Hx Ha Hy. rewrite every_suffix_app, Hy, andb_true_r.
  destruct (startswith_inv _ _ Ha) as [z ->].
  revert Hx. apply every_suffix_impl. intros b Hb.
  rewrite app_assoc. apply clash_app_r. exact Hb.
Qed.

Ltac written_chunk k c :=
  destruct (char_eqb k c) eqn:?;
  [right; unfold sanitize_chunks; cbn [In];
   repeat first [left; reflexivity | right]|].

Lemma sanitize_char_shape (c : char) :
  sanitize_char c = []
  \/ (sanitize_char c = [c] /\ char_eqb 92 c = false)
  \/ In (sanitize_char c) sanitize_chunks.
Proof.
  unfold sanitize_char. destruct (is_ascii c); [|left; reflexivity].
  right.
  written_chunk 38 c. written_chunk 37 c. written_chunk 36 c.
  written_chunk 35 c. written_chunk 95 c. written_chunk 123 c.
  written_chunk 125 c. written_chunk 126 c. written_chunk 94 c.
  written_chunk 92 c. written_chunk 60 c. written_chunk 62 c.
  written_chunk 124 c.
  left. split; reflexivity.
Qed.

Lemma sanitize_by_chars (v : pyval) :
  exists s, sanitize v = flat_map sanitize_char s.
Proof.
  unfold sanitize. destruct (negb (truthy v)).
  - exists []. reflexivity.
  - exists (format_val v). rewrite <- sanitize_chars, sanitize_str.
    reflexivity.
Qed.

(** No block that starts with a backslash and differs from the commands
    [sanitize] writes starts in a sanitised text. *)
Lemma sanitize_apart (K : str) (v : pyval) :
  startswith [92] K = true ->
  forallb (every_suffix (clash K)) sanitize_chunks = true ->
  every_suffix (clash K) (sanitize v) = true.
Proof.
  intros HK Hchunks. destruct (startswith_inv _ _ HK) as [K' ->].
  destruct (sanitize_by_chars v) as [s ->].
  induction s as [|c s IH]; [reflexivity|].
  cbn [flat_map]. apply apart_app; [|exact IH].
  destruct (sanitize_char_shape c) as [->|[[-> Hc]|Hin]].
  - reflexivity.
  - cbn [app every_suffix clash]. rewrite Hc. reflexivity.
  - exact (proj1 (forallb_forall _ _) Hchunks _ Hin).
Qed.

Lemma join_starts (sep x : str) (rest : list str) :
  exists z, join sep (x :: rest) = x ++ z.
Proof.
  destruct rest as [|y rest].
  - exists []. cbn [join]. rewrite app_nil_r. reflexivity.
  - exists (sep ++ join sep (y :: rest)). reflexivity.
Qed.

Lemma join_apart (K sep : str) (items : list str) (tail : str) :
  every_suffix (clash K) sep = true ->
  (forall x, In x items -> every_suffix (clash K) x = true) ->
  every_suffix (clash K) tail = true ->
  every_suffix (clash K) (join sep items ++ tail) = true.
Proof.
  intros Hsep Hitems Htail.
  induction items as [|x items IH]; [exact Htail|].
  destruct items as [|y rest].
  - cbn [join]. apply apart_app; [|exact Htail].
    apply Hitems. left; reflexivity.
  - change (join sep (x :: y :: rest))
      with (x ++ sep ++ join sep (y :: rest)).
    rewrite <- !app_assoc.
    apply apart_app; [apply Hitems; left; reflexivity|].
    apply apart_app; [exact Hsep|].
    apply IH. intros z Hz. apply Hitems. right; exact Hz.
Qed.

(** A list section: [opening], a line break, the items joined by line
    breaks, a line break, [closing]; every item starts with [first]. *)
Lemma listing_apart (K opening closing first : str) (items : list str) :
  every_suffix (fun b => clash K (b ++ nl ++ first)) opening = true ->
  every_suffix (clash K) (opening ++ nl ++ nl ++ closing) = true ->
  every_suffix (clash K) (nl ++ closing) = true ->
  every_suffix (clash K) nl = true ->
  (forall x, In x items ->
     startswith first x = true /\ every_suffix (clash K) x = true) ->
  every_suffix (clash K) (opening ++ nl ++ join nl items ++ nl ++ closing)
  = true.
Proof.
  intros Hopen Hempty Hclose Hnl Hitems.
  destruct items as [|x rest]; [exact Hempty|].
  assert (Hrest : every_suffix (clash K)
                    (nl ++ join nl (x :: rest) ++ nl ++ closing) = true).
  { apply apart_app; [exact Hnl|].
    apply join_apart; [exact Hnl| |exact Hclose].
    intros z Hz. apply Hitems, Hz. }
  apply (apart_app_ahead K opening (nl ++ first)); [exact Hopen| |exact Hrest].
  destruct (Hitems x (or_introl eq_refl)) as [Hfirst _].
  destruct (startswith_inv _ _ Hfirst) as [z0 E].
  destruct (join_starts nl x rest) as [z1 ->]. rewrite E.
  rewrite <- !app_assoc. rewrite app_assoc. apply startswith_app.
Qed.

Lemma ends_apart_from (K' Kj first Vj : str) :
  every_suffix (fun s => clash s Kj && clash s first) K' = true ->
  startswith first Vj = true ->
  every_suffix (fun s => clash s Kj && clash s Vj) K' = true.
Proof.
  intros H Hfirst. destruct (startswith_inv _ _ Hfirst) as [z ->].
  revert H. apply every_suffix_impl. intros b. rewrite !andb_true_iff.
  intros [H1 H2]. split; [exact H1|apply clash_app_r; exact H2].
Qed.

(** ** The table of [generate_latex_resume] *)

Lemma all_distinct_NoDup (names : list str) :
  all_distinct names = true -> NoDup names.
Proof.
  induction names as [|x names IH]; [constructor|].
  cbn [all_distinct]. intros H. apply andb_true_iff in H.
  destruct H as [Hx Hrest]. constructor; [|exact (IH Hrest)].
  intros Hin. apply str_in_In in Hin. rewrite Hin in Hx. discriminate.
Qed.

Lemma starts_two (a b z : str) : startswith (a ++ b) (a ++ b ++ z) = true.
Proof. rewrite app_assoc. apply startswith_app. Qed.

Lemma starts_three (a b c z : str) :
  startswith (a ++ b ++ c) (a ++ b ++ c ++ z) = true.
Proof.
  replace (a ++ b ++ c ++ z) with ((a ++ b ++ c) ++ z)
    by (rewrite <- !app_assoc; reflexivity).
  apply startswith_app.
Qed.

(** Goes through a fragment piece by piece: literal pieces are checked by
    computation, sanitised pieces by [sanitize_apart]. *)
Ltac peel_apart :=
  repeat lazymatch goal with
  | |- every_suffix _ (sanitize _ ++ _) = true =>
      apply apart_app; [apply sanitize_apart; vm_compute; reflexivity|]
  | |- every_suffix _ (u " \\" ++ nl ++ _) = true =>
      apply (apart_app_ahead _ _ nl);
      [vm_compute; reflexivity|apply startswith_app|]
  | |- every_suffix _ (_ ++ _) = true =>
      apply apart_app; [vm_compute; reflexivity|]
  | |- every_suffix _ _ = true => vm_compute; reflexivity
  end.

Ltac each_block H :=
  cbn [In] in H; repeat destruct H as [<-|H]; try contradiction.

Lemma name_fragment_apart (d : FinalData) (K : str) :
  In K [TemplateBlock.skills; TemplateBlock.experience;
        TemplateBlock.projects; TemplateBlock.education;
        TemplateBlock.contact] ->
  every_suffix (clash K)
    (u "\textbf{\Huge \scshape " ++ sanitize (fd_name d) ++ u "}") = true.
Proof. intros H. each_block H; peel_apart. Qed.

Lemma skills_section_apart (d : FinalData) (K : str) :
  In K [TemplateBlock.name; TemplateBlock.experience;
        TemplateBlock.projects; TemplateBlock.education;
        TemplateBlock.contact] ->
  every_suffix (clash K) (skills_section d) = true.
Proof.
  intros H. unfold skills_section. cbv zeta. each_block H; peel_apart.
Qed.

Lemma contact_section_apart (d : FinalData) (K : str) :
  In K [TemplateBlock.name; TemplateBlock.skills; TemplateBlock.experience;
        TemplateBlock.projects; TemplateBlock.education] ->
  every_suffix (clash K) (contact_section d) = true.
Proof. intros H. unfold contact_section. each_block H; peel_apart. Qed.

Lemma experience_item_apart (d : FinalData) (e : ExpData) (K : str) :
  In K [TemplateBlock.name; TemplateBlock.skills; TemplateBlock.projects;
        TemplateBlock.education; TemplateBlock.contact] ->
  every_suffix (clash K) (experience_item d e) = true.
Proof.
  intros H. unfold experience_item. cbv zeta. each_block H; peel_apart.
Qed.

Lemma project_item_apart (p : ProjectData) (K : str) :
  In K [TemplateBlock.name; TemplateBlock.skills; TemplateBlock.experience;
        TemplateBlock.education; TemplateBlock.contact] ->
  every_suffix (clash K) (project_item p) = true.
Proof.
  intros H. unfold project_item. cbv zeta. each_block H; peel_apart.
Qed.

Lemma education_item_apart (d : FinalData) (e : EducationData) (K : str) :
  In K [TemplateBlock.name; TemplateBlock.skills; TemplateBlock.experience;
        TemplateBlock.projects; TemplateBlock.contact] ->
  every_suffix (clash K) (education_item d e) = true.
Proof. intros H. unfold education_item. each_block H; peel_apart. Qed.

Lemma experience_section_apart (d : FinalData) (K : str) :
  In K [TemplateBlock.name; TemplateBlock.skills; TemplateBlock.projects;
        TemplateBlock.education; TemplateBlock.contact] ->
  every_suffix (clash K) (experience_section d) = true.
Proof.
  intros H. unfold experience_section.
  apply (listing_apart K _ _ (u "\resumeSubheading" ++ nl ++ u "            {")).
  5: { intros x Hx. unfold experience_items in Hx.
       apply in_map_iff in Hx. destruct Hx as [e [<- _]]. split.
       - unfold experience_item. cbv zeta. apply starts_three.
       - apply experience_item_apart, H. }
  all: each_block H; vm_compute; reflexivity.
Qed.

Lemma projects_section_apart (d : FinalData) (K : str) :
  In K [TemplateBlock.name; TemplateBlock.skills; TemplateBlock.experience;
        TemplateBlock.education; TemplateBlock.contact] ->
  every_suffix (clash K) (projects_section d) = true.
Proof.
  intros H. unfold projects_section.
  apply (listing_apart K _ _
           (u "\resumeSubheading" ++ nl ++ u "                {")).
  5: { intros x Hx. unfold project_items in Hx.
       apply in_map_iff in Hx. destruct Hx as [p [<- _]]. split.
       - unfold project_item. cbv zeta. apply starts_three.
       - apply project_item_apart, H. }
  all: each_block H; vm_compute; reflexivity.
Qed.

Lemma education_section_apart (d : FinalData) (K : str) :
  In K [TemplateBlock.name; TemplateBlock.skills; TemplateBlock.experience;
        TemplateBlock.projects; TemplateBlock.contact] ->
  every_suffix (clash K) (education_section d) = true.
Proof.
  intros H. unfold education_section.
  apply (listing_apart K _ _ (u "\resumeSubheading" ++ u "{")).
  5: { intros x Hx. apply in_map_iff in Hx. destruct Hx as [e [<- _]]. split.
       - unfold education_item. apply starts_two.
       - apply education_item_apart, H. }
  all: each_block H; vm_compute; reflexivity.
Qed.

Ltac fragment_apart :=
  lazymatch goal with
  | |- every_suffix _ (skills_section _) = true =>
      apply skills_section_apart
  | |- every_suffix _ (experience_section _) = true =>
      apply experience_section_apart
  | |- every_suffix _ (projects_section _) = true =>
      apply projects_section_apart
  | |- every_suffix _ (education_section _) = true =>
      apply education_section_apart
  | |- every_suffix _ (contact_section _) = true =>
      apply contact_section_apart
  | |- _ => apply name_fragment_apart
  end;
  cbn [In]; repeat first [left; reflexivity | right].

(** The six blocks that [generate_latex_resume] registers keep apart from
    one another and from the fragments written for the others, whatever
    the facts are. *)
Lemma replacements_separate (d : FinalData) : separate_table (replacements d).
Proof.
  split; [|split].
  - apply (NoDup_map_inv fst), all_distinct_NoDup.
    exact (proj2 (proj2 (dict_keys_distinct d))).
  - intros kv H. unfold replacements in H. each_block H; cbn [fst];
      vm_compute; discriminate.
  - intros kv kv' H H' Hne. unfold replacements in H, H'.
    each_block H; each_block H'; try congruence;
      (split; [vm_compute; reflexivity|]);
      cbn [fst snd];
      (split;
       [eapply ends_apart_from; cycle 1;
        [apply startswith_app|vm_compute; reflexivity]
       |fragment_apart]).
Qed.

(** Separation is what the result rests on: a table whose second block is
    the fragment of the first is not separate. *)
Lemma chained_table_not_separate :
  ~ separate_table [(u "a", u "b"); (u "b", u "c")].
Proof.
  intros [_ [_ A]].
  destruct (A (u "b", u "c") (u "a", u "b")) as [_ [_ H]].
  - right; left; reflexivity.
  - left; reflexivity.
  - discriminate.
  - vm_compute in H. discriminate.
Qed.

(** C3: for every template and every facts record, the renderer run over
    the pairs that [generate_latex_resume] registers, in any order of
    application, returns the result of substituting each block
    independently into the original template: every occurrence of a block
    in the template is replaced once by its fragment, and no replacement
    acts on a fragment put in by another.  The result is that of
    [generate_latex_resume], and the independent substitution does not
    depend on the order of the pairs either. *)
Theorem render_substitutes_blocks_independently :
  forall (template : str) (d : FinalData) (table : list (str * str)),
    Permutation table (replacements d) ->
    render template table = render_independent template (replacements d)
    /\ render template table = generate_latex_resume template d
    /\ render_independent template table
       = render_independent template (replacements d).
Proof.
  intros template d table P.
  pose proof (replacements_separate d) as Hd.
  pose proof (separate_table_perm _ _ (Permutation_sym P) Hd) as Ht.
  assert (Hsame : render_independent template table
                  = render_independent template (replacements d)).
  { unfold render_independent. apply render_independent_same_pairs.
    - exact Ht.
    - intros kv. split; apply Permutation_in;
        [exact P|exact (Permutation_sym P)]. }
  split; [|split].
  - rewrite (render_separate _ Ht). exact Hsame.
  - rewrite (render_separate _ Ht), Hsame. unfold generate_latex_resume.
    symmetry. apply render_separate, Hd.
  - exact Hsame.
Qed.

Lemma render_substitutes_blocks_independently_witness :
  Permutation (rev (replacements ada)) (replacements ada)
  /\ render two_column_template (rev (replacements ada))
     = render_independent two_column_template (replacements ada).
Proof.
  split; [apply Permutation_sym, Permutation_rev|].
  apply (render_substitutes_blocks_independently two_column_template ada
           (rev (replacements ada))).
  apply Permutation_sym, Permutation_rev.
Defined.
